(** * Liquidity processor: validation and scoring of market-data messages

    A shallow embedding of [src/app/processor.py] and of the Python
    built-ins it calls ([int], [float], [round], [/] on integers, [+] and
    [>=] on floats, [dict.get] and dictionary unpacking), followed by the
    properties of the two operations [validate_input_message] and
    [compute_liquidity_signal].

    Python's [float] is IEEE-754 binary64, which is the kernel's primitive
    [float]; its operations are read through [Prim2SF], the standard
    library's specification of that format. *)

From Stdlib Require Import ZArith Lia Bool List Ascii String.
From stdpp Require Import gmap strings.
Set Warnings "-inexact-float,-register-all".
From Stdlib Require Import Floats.

Open Scope Z_scope.

(** ** Exact arithmetic behind binary64

    Every finite binary64 number is an integer multiple of [2^-1074], the
    smallest positive subnormal.  Counting in that unit turns a finite
    float into an integer, and rounding into integer division. *)

Module F64.

(** The exponent of the unit: one unit is [2^-1074]. *)
Definition unit_exp : Z := 1074.

(** [2^1024], the first magnitude that no longer fits, in units. *)
Definition overflow_units : Z := 2 ^ 2098.

(** The integer nearest to [n / d], ties to the even one
    ([0 <= n], [0 < d]). *)
Definition rne_div (n d : Z) : Z :=
  let q := n / d in
  match 2 * (n mod d) ?= d with
  | Lt => q
  | Gt => q + 1
  | Eq => if Z.even q then q else q + 1
  end.

(** How many low bits a 53-bit significand has to drop to hold [n / d]:
    the least [s >= 0] with [n / d < 2^(53 + s)]. *)
Definition ratio_shift (n d : Z) : Z :=
  let s := Z.max 0 (Z.log2 n - Z.log2 d - 53) in
  if n <? d * 2 ^ (s + 53) then s else s + 1.

(** Round-to-nearest-even of the non-negative rational [n / d] (in
    units) to 53 significant bits, with no upper bound on the result. *)
Definition round_units (n d : Z) : Z :=
  let s := ratio_shift n d in
  rne_div n (d * 2 ^ s) * 2 ^ s.

(** The magnitude [u] units rounded to a multiple of [1 / p], ties to
    even, and that decimal rounded back to 53 bits. *)
Definition decimal_units (p u : Z) : Z :=
  let n := rne_div (u * p) (2 ^ unit_exp) in
  round_units (n * 2 ^ unit_exp) p.

(** The signed number of units of a finite float; 0 for the others. *)
Definition units_SF (x : spec_float) : Z :=
  match x with
  | S754_finite s m e => cond_Zopp s (Zpos m * 2 ^ (e + unit_exp))
  | _ => 0
  end.

Definition units (x : float) : Z := units_SF (Prim2SF x).

(** The float of sign [neg] and magnitude [k] units; [k] is meant to be
    a value of [round_units]. *)
Definition SF_of_units (neg : bool) (k : Z) : spec_float :=
  if k <=? 0 then S754_zero neg
  else if overflow_units <=? k then S754_infinity neg
  else
    let s := Z.max 0 (Z.log2 k - 52) in
    S754_finite neg (Z.to_pos (k / 2 ^ s)) (s - unit_exp).

Definition of_units (neg : bool) (k : Z) : float :=
  SF2Prim (SF_of_units neg k).

(** The sign bit ([true] for negative), also of zeros and infinities. *)
Definition sign_SF (x : spec_float) : bool :=
  match x with
  | S754_zero s | S754_infinity s | S754_finite s _ _ => s
  | S754_nan => false
  end.

Definition finite_SF (x : spec_float) : bool :=
  match x with
  | S754_zero _ | S754_finite _ _ _ => true
  | _ => false
  end.

Definition finite (x : float) : bool := finite_SF (Prim2SF x).

(** IEEE-754 addition, written out: the exact sum rounded to nearest
    even; a sum that is exactly zero is [+0] unless both terms are
    negative (zeros). *)
Definition add_SF (x y : spec_float) : spec_float :=
  match x, y with
  | S754_nan, _ | _, S754_nan => S754_nan
  | S754_infinity sx, S754_infinity sy =>
      if Bool.eqb sx sy then x else S754_nan
  | S754_infinity _, _ => x
  | _, S754_infinity _ => y
  | S754_zero sx, S754_zero sy => S754_zero (sx && sy)
  | _, _ =>
      let k := units_SF x + units_SF y in
      SF_of_units (k <? 0) (round_units (Z.abs k) 1)
  end.

(** IEEE-754 division, written out the same way. *)
Definition div_SF (x y : spec_float) : spec_float :=
  let s := xorb (sign_SF x) (sign_SF y) in
  match x, y with
  | S754_nan, _ | _, S754_nan => S754_nan
  | S754_infinity _, S754_infinity _ => S754_nan
  | S754_infinity _, _ => S754_infinity s
  | _, S754_infinity _ => S754_zero s
  | S754_zero _, S754_zero _ => S754_nan
  | S754_zero _, _ => S754_zero s
  | _, S754_zero _ => S754_infinity s
  | _, _ =>
      SF_of_units s
        (round_units (Z.abs (units_SF x) * 2 ^ unit_exp) (Z.abs (units_SF y)))
  end.

(** *** Vocabulary of the proofs *)

(** [s] is the shift of [n / d]: the ratio is below [2^(53 + s)] and,
    unless [s] is 0, at least [2^(52 + s)]. *)
Definition in_binade (n d s : Z) : Prop :=
  0 <= s /\ n < d * 2 ^ (s + 53) /\ (s = 0 \/ d * 2 ^ (s + 52) <= n).

(** The significand that [round_units] keeps. *)
Definition significand (n d : Z) : Z :=
  rne_div n (d * 2 ^ ratio_shift n d).

(** [k] units fit a 53-bit significand. *)
Definition representable (k : Z) : Prop :=
  exists m s, 0 <= s /\ 0 <= m < 2 ^ 53 /\ k = m * 2 ^ s.

(** The bounds that make a significand and an exponent a binary64 number. *)
Definition canonical (m e : Z) : Prop :=
  - unit_exp <= e <= 971 /\ 0 < m < 2 ^ 53 /\ (e = - unit_exp \/ 2 ^ 52 <= m).

Definition is_nan_SF (x : spec_float) : bool :=
  match x with S754_nan => true | _ => false end.

(** An order embedding of the floats other than NaN into the integers. *)
Definition key (x : spec_float) : Z :=
  match x with
  | S754_infinity s => cond_Zopp s overflow_units
  | _ => units_SF x
  end.

(** The odd extension of a function on magnitudes. *)
Definition signed (G : Z -> Z) (k : Z) : Z := cond_Zopp (k <? 0) (G (Z.abs k)).

(** The magnitude, in units, of the float nearest to [a / b]. *)
Definition quotient_units (b a : Z) : Z := round_units (a * 2 ^ unit_exp) b.

(** A function on the units of finite floats, extended to the
    infinities, which it leaves alone. *)
Definition lift_key (F : Z -> Z) (x : spec_float) : Z :=
  if finite_SF x then F (key x) else key x.

(** Saturation at the overflow threshold. *)
Definition clamp (k : Z) : Z := Z.min k overflow_units.

(** The units of a sum of [k] units, saturated. *)
Definition sum_units (k : Z) : Z := signed (fun a => clamp (round_units a 1)) k.

(** The units of [k] units rounded to a multiple of [1 / p], saturated. *)
Definition rounded_units (p k : Z) : Z :=
  signed (fun u => clamp (decimal_units p u)) k.

(** [m] is the integer part of [n / d], and [l] tells where [n / d]
    lies between [m] and [m + 1]. *)
Definition located (n d m : Z) (l : location) : Prop :=
  m * d <= n < (m + 1) * d /\
  l = if n =? m * d then loc_Exact else loc_Inexact (2 * (n - m * d) ?= d).

End F64.

(** ** Python values, exceptions and the logging side channel *)

(** The values a decoded message can hold. *)
Inductive pyval :=
| VNone
| VBool (b : bool)
| VInt (n : Z)
| VFloat (x : float)
| VStr (s : string)
| VList (l : list pyval)
| VDict (d : gmap string pyval).

(** [dict[str, Any]], and [app.utils.types.ValidatedMessage], which is the
    same dictionary at run time. *)
Abbreviation dict := (gmap string pyval).
Abbreviation ValidatedMessage := (gmap string pyval).

Inductive exn_class := ValueError | TypeError | OverflowError | ZeroDivisionError.

(** An exception is either raised by the interpreter inside a built-in
    (its message text is left out), or by a [raise C(args)] of the source. *)
Inductive exn :=
| Builtin (c : exn_class)
| Raise (c : exn_class) (args : list pyval).

Definition class_of (e : exn) : exn_class :=
  match e with Builtin c | Raise c _ => c end.

(** What an exception object carries: the arguments it was built with. *)
Definition args_of (e : exn) : list pyval :=
  match e with Builtin _ => [] | Raise _ args => args end.

Inductive outcome (A : Type) :=
| Returned (a : A)
| Raised (e : exn).
Arguments Returned {A} a.
Arguments Raised {A} e.

Inductive level := DEBUG | INFO | ERROR.

(** One call of [logger.debug], [logger.info] or [logger.error]: the
    format string and its lazily formatted arguments. *)
Record log_record := LogRecord {
  log_level : level;
  log_format : string;
  log_args : list pyval
}.

(** A computation that writes log records and then returns or raises. *)
Definition M (A : Type) : Type := list log_record * outcome A.

Definition ret {A} (a : A) : M A := ([], Returned a).
Definition raise {A} (e : exn) : M A := ([], Raised e).
Definition lift {A} (o : outcome A) : M A := ([], o).
Definition log (l : level) (fmt : string) (args : list pyval) : M unit :=
  ([LogRecord l fmt args], Returned tt).

Definition bind {A B} (c : M A) (k : A -> M B) : M B :=
  match c with
  | (l1, Returned a) => let '(l2, r) := k a in (l1 ++ l2, r)
  | (l1, Raised e) => (l1, Raised e)
  end.

Notation "x <- c ;; k" := (bind c (fun x => k))
  (at level 100, c at next level, right associativity).
Notation "c ;; k" := (bind c (fun _ => k))
  (at level 100, right associativity).

(** The records written, and what the caller gets. *)
Definition logged {A} (c : M A) : list log_record := fst c.
Definition result {A} (c : M A) : outcome A := snd c.

(** ** The built-ins the processor calls *)

Module Py.

(** [d.get(key, default)] *)
Definition dict_get (d : dict) (key : string) (default : pyval) : pyval :=
  match d !! key with
  | Some v => v
  | None => default
  end.

(** [{**a, **b}]: the entries of [a], then those of [b] written over them. *)
Definition dict_unpack2 (a b : dict) : dict := b ∪ a.

(** [int(x)] of a float: truncation toward zero. *)
Definition int_of_float (x : float) : outcome Z :=
  match Prim2SF x with
  | S754_nan => Raised (Builtin ValueError)
  | S754_infinity _ => Raised (Builtin OverflowError)
  | sf => Returned (Z.quot (F64.units_SF sf) (2 ^ F64.unit_exp))
  end.

(** [float(n)] of an integer: the nearest float, ties to even. *)
Definition float_of_int (n : Z) : outcome float :=
  let k := F64.round_units (Z.abs n * 2 ^ F64.unit_exp) 1 in
  if F64.overflow_units <=? k then Raised (Builtin OverflowError)
  else Returned (F64.of_units (n <? 0) k).

(** [a / b] of two integers: the float nearest to the exact quotient. *)
Definition int_true_divide (a b : Z) : outcome float :=
  if b =? 0 then Raised (Builtin ZeroDivisionError)
  else
    let k := F64.round_units (Z.abs a * 2 ^ F64.unit_exp) (Z.abs b) in
    if F64.overflow_units <=? k then Raised (Builtin OverflowError)
    else Returned (F64.of_units (xorb (a <? 0) (b <? 0)) k).

(** [x + y] of two floats. *)
Definition float_add (x y : float) : float := (x + y)%float.

(** [x >= n] of a float and an integer: the exact comparison. *)
Definition float_ge_int (x : float) (n : Z) : bool :=
  match Prim2SF x with
  | S754_nan => false
  | S754_infinity s => negb s
  | sf => n * 2 ^ F64.unit_exp <=? F64.units_SF sf
  end.

(** [round(x, ndigits)] of a float, [ndigits >= 0]: the decimal with
    [ndigits] places nearest to the exact value of [x], ties to even,
    converted back to the nearest float; the sign is kept. *)
Definition float_round (x : float) (ndigits : N) : float :=
  match Prim2SF x with
  | S754_nan | S754_infinity _ => x
  | sf =>
      F64.of_units (F64.sign_SF sf)
        (F64.decimal_units (10 ^ Z.of_N ndigits) (Z.abs (F64.units_SF sf)))
  end.

Section Coercions.

(** [int(s)] and [float(s)] of a string: the interpreter's two literal
    grammars, [None] for a string outside them. *)
Variable int_literal : string -> option Z.
Variable float_literal : string -> option float.

(** [int(v)] *)
Definition int (v : pyval) : outcome Z :=
  match v with
  | VBool b => Returned (if b then 1 else 0)
  | VInt n => Returned n
  | VFloat x => int_of_float x
  | VStr s =>
      match int_literal s with
      | Some n => Returned n
      | None => Raised (Builtin ValueError)
      end
  | VNone | VList _ | VDict _ => Raised (Builtin TypeError)
  end.

(** [float(v)] *)
Definition float (v : pyval) : outcome PrimFloat.float :=
  match v with
  | VBool b => Returned (if b then 1%float else 0%float)
  | VInt n => float_of_int n
  | VFloat x => Returned x
  | VStr s =>
      match float_literal s with
      | Some x => Returned x
      | None => Raised (Builtin ValueError)
      end
  | VNone | VList _ | VDict _ => Raised (Builtin TypeError)
  end.

End Coercions.

End Py.

(** ** The literal grammars on ASCII strings

    What [int(s)] and [float(s)] accept when [s] is made of ASCII
    characters: surrounding white space, a sign, decimal digits with
    single underscores between them and, for floats, a fraction, an
    exponent, and the words [inf], [infinity] and [nan] in any case. *)

Module Literal.

Definition code (c : ascii) : Z := Z.of_N (Ascii.N_of_ascii c).

Definition is_space (c : ascii) : bool :=
  let n := code c in
  ((9 <=? n) && (n <=? 13)) || ((28 <=? n) && (n <=? 32)).

Definition digit_of (c : ascii) : option Z :=
  let n := code c in
  if (48 <=? n) && (n <=? 57) then Some (n - 48) else None.

Definition is_char (c : ascii) (n : Z) : bool := code c =? n.

(** ASCII lower case, for the case-insensitive words. *)
Definition lower (c : ascii) : Z :=
  let n := code c in
  if (65 <=? n) && (n <=? 90) then n + 32 else n.

Fixpoint lstrip (s : list ascii) : list ascii :=
  match s with
  | c :: s' => if is_space c then lstrip s' else s
  | [] => []
  end.

Definition strip (s : list ascii) : list ascii :=
  rev (lstrip (rev (lstrip s))).

(** After a first digit: more digits, each possibly after one
    underscore.  Returns the value, the number of digits and the rest. *)
Fixpoint more_digits (acc : Z) (cnt : Z) (s : list ascii)
  : Z * Z * list ascii :=
  match s with
  | c :: s' =>
      match digit_of c with
      | Some d => more_digits (acc * 10 + d) (cnt + 1) s'
      | None =>
          if is_char c 95 then
            match s' with
            | c2 :: s'' =>
                match digit_of c2 with
                | Some d => more_digits (acc * 10 + d) (cnt + 1) s''
                | None => (acc, cnt, s)
                end
            | [] => (acc, cnt, s)
            end
          else (acc, cnt, s)
      end
  | [] => (acc, cnt, s)
  end.

(** [digit (["_"] digit)*] *)
Definition digitpart (s : list ascii) : option (Z * Z * list ascii) :=
  match s with
  | c :: s' =>
      match digit_of c with
      | Some d => Some (more_digits d 1 s')
      | None => None
      end
  | [] => None
  end.

(** An optional sign: [true] for [-]. *)
Definition sign (s : list ascii) : bool * list ascii :=
  match s with
  | c :: s' =>
      if is_char c 45 then (true, s')
      else if is_char c 43 then (false, s')
      else (false, s)
  | [] => (false, s)
  end.

Definition int_literal (s : string) : option Z :=
  let '(neg, body) := sign (strip (list_ascii_of_string s)) in
  match digitpart body with
  | Some (v, _, []) => Some (if neg then - v else v)
  | _ => None
  end.

(** The float nearest to [m * 10^e10], with the sign [neg]. *)
Definition decimal_to_float (neg : bool) (m e10 : Z) : float :=
  if 0 <=? e10
  then F64.of_units neg (F64.round_units (m * 10 ^ e10 * 2 ^ F64.unit_exp) 1)
  else F64.of_units neg (F64.round_units (m * 2 ^ F64.unit_exp) (10 ^ (- e10))).

(** [("e" | "E") ["+" | "-"] digitpart], or nothing. *)
Definition exponent (s : list ascii) : option (Z * list ascii) :=
  match s with
  | c :: s' =>
      if is_char c 101 || is_char c 69 then
        let '(neg, body) := sign s' in
        match digitpart body with
        | Some (v, _, rest) => Some (if neg then - v else v, rest)
        | None => None
        end
      else Some (0, s)
  | [] => Some (0, s)
  end.

Definition decimal (neg : bool) (s : list ascii) : option float :=
  let '(vi, ni, rest1) :=
    match digitpart s with Some r => r | None => (0, 0, s) end in
  let '(vf, nf, rest2) :=
    match rest1 with
    | c :: s' =>
        if is_char c 46 then
          match digitpart s' with Some r => r | None => (0, 0, s') end
        else (0, 0, rest1)
    | [] => (0, 0, rest1)
    end in
  if ni + nf =? 0 then None
  else
    match exponent rest2 with
    | Some (e, []) => Some (decimal_to_float neg (vi * 10 ^ nf + vf) (e - nf))
    | _ => None
    end.

Definition float_literal (s : string) : option float :=
  let '(neg, body) := sign (strip (list_ascii_of_string s)) in
  let word := map lower body in
  if bool_decide (word = [105; 110; 102])
     || bool_decide (word = [105; 110; 102; 105; 110; 105; 116; 121])
  then Some (if neg then neg_infinity else infinity)
  else if bool_decide (word = [110; 97; 110]) then Some nan
  else decimal neg body.

End Literal.

(** ** The processor *)

Section Processor.

(** [app.utils.validate_data.validate_message_schema], the schema
    predicate the validator delegates to. *)
Variable validate_message_schema : dict -> bool.

Variable int_literal : string -> option Z.
Variable float_literal : string -> option float.

Definition validate_input_message (message : dict) : M ValidatedMessage :=
  log DEBUG "🔍 Validating message schema..." [] ;;
  if negb (validate_message_schema message) then
    log ERROR "❌ Invalid message schema: %s" [VDict message] ;;
    raise (Raise ValueError [VStr "Invalid message format"])
  else ret message.

(** [score], line 54 of the source. *)
Definition raw_score (avg_volume : Z) (turnover_ratio : float)
  : outcome float :=
  match Py.int_true_divide avg_volume 1000000 with
  | Returned q => Returned (Py.float_add q turnover_ratio)
  | Raised e => Raised e
  end.

Definition compute_liquidity_signal (message : ValidatedMessage) : M dict :=
  let symbol := Py.dict_get message "symbol" (VStr "UNKNOWN") in
  avg_volume <-
    lift (Py.int int_literal (Py.dict_get message "avg_volume" (VInt 1000000))) ;;
  turnover_ratio <-
    lift (Py.float float_literal
            (Py.dict_get message "turnover_ratio" (VFloat 0.8))) ;;
  log INFO "💧 Computing liquidity signal for %s" [symbol] ;;
  score <- lift (raw_score avg_volume turnover_ratio) ;;
  let signal := if Py.float_ge_int score 2 then "LIQUID" else "ILLIQUID" in
  let result : dict :=
    {[ "liquidity_score" := VFloat (Py.float_round score 4);
       "liquidity_signal" := VStr signal ]} in
  log DEBUG "✅ Liquidity result for %s: %s" [symbol; VDict result] ;;
  ret (Py.dict_unpack2 message result).

End Processor.

(** The mapping the scorer returns once the score is known: lines 55 to 63. *)
Definition enriched (message : dict) (score : float) : dict :=
  Py.dict_unpack2 message
    {[ "liquidity_score" := VFloat (Py.float_round score 4);
       "liquidity_signal" :=
         VStr (if Py.float_ge_int score 2 then "LIQUID" else "ILLIQUID") ]}.

(** ** The words of the specification *)

Module Spec.

(** The score as the specification writes it,
    [(avg_volume / 1_000_000.0) + turnover_ratio]: the integer is
    converted to a float and divided by the float [1000000.0]. *)
Definition score_as_written (avg_volume : Z) (turnover_ratio : float)
  : outcome float :=
  match Py.float_of_int avg_volume with
  | Returned x => Returned (x / 1000000 + turnover_ratio)%float
  | Raised e => Raised e
  end.

(** [n] is an integer nearest to [a / b], the even one on a tie. *)
Definition nearest_even_integer (a b n : Z) : Prop :=
  2 * Z.abs (n * b - a) <= b /\
  (2 * Z.abs (n * b - a) = b -> Z.even n = true).

(** [y] has the sign [neg] and a magnitude nearest to [n / d] among the
    numbers a 53-bit significand can hold. *)
Definition nearest_float (neg : bool) (n d : Z) (y : float) : Prop :=
  exists k,
    F64.representable k /\ Prim2SF y = F64.SF_of_units neg k /\
    forall k', F64.representable k' ->
      Z.abs (k * d - n * 2 ^ F64.unit_exp)
      <= Z.abs (k' * d - n * 2 ^ F64.unit_exp).

(** [y] is [x] rounded to [ndigits] decimal places, ties to even: the
    float nearest to the decimal [n / 10^ndigits], where [n] is the
    integer nearest to [|x| * 10^ndigits]; NaN and the infinities round
    to themselves. *)
Definition rounded_half_even (ndigits : N) (x y : float) : Prop :=
  match Prim2SF x with
  | S754_nan | S754_infinity _ => y = x
  | sf =>
      exists n,
        nearest_even_integer
          (Z.abs (F64.units_SF sf) * 10 ^ Z.of_N ndigits)
          (2 ^ F64.unit_exp) n /\
        nearest_float (F64.sign_SF sf) n (10 ^ Z.of_N ndigits) y
  end.

(** The exception object carries the message among its arguments. *)
Definition carries (e : exn) (message : dict) : Prop :=
  VDict message ∈ args_of e.

End Spec.

(** ** Sample messages and a sample schema *)

Module Sample.

Definition requires_symbol (message : dict) : bool :=
  bool_decide (is_Some (message !! "symbol")).

Definition defaults : dict := {[ "symbol" := VStr "ABC" ]}.

Definition volume (avg_volume turnover_ratio : pyval) : dict :=
  {[ "symbol" := VStr "ABC";
     "avg_volume" := avg_volume;
     "turnover_ratio" := turnover_ratio ]}.

Definition boundary : dict := volume (VInt 1200000) (VFloat 0.8).
Definition below_boundary : dict := volume (VInt 1199999) (VFloat 0.8).
Definition rounding : dict := volume (VInt 1500000) (VFloat 0.33333).
Definition fractional : dict := volume (VFloat 1999999.9) (VFloat 0.8).
Definition not_a_number : dict := volume (VStr "not_a_number") (VFloat 0.8).
Definition huge : dict := volume (VInt 1000000000000000063) (VFloat 0.8).

(** A message that already has the two computed keys. *)
Definition stale : dict :=
  {[ "symbol" := VStr "ABC";
     "liquidity_score" := VStr "n/a";
     "liquidity_signal" := VNone ]}.

Definition no_symbol : dict := {[ "avg_volume" := VInt 5 ]}.

(** The two fields given as text. *)
Definition textual : dict := volume (VStr "1999999") (VStr "0.8").

(** A message with a turnover just below 1 and nothing else. *)
Definition almost_one : dict :=
  {[ "turnover_ratio" := VFloat 0x1.fffffffffffffp-1 ]}.

Definition nan_turnover : dict := volume (VInt 1500000) (VStr "nan").
Definition infinite_volume : dict := volume (VFloat infinity) (VFloat 0.8).

(** The first volume whose quotient by 1,000,000 does not fit a float,
    and the volume whose quotient is the largest float. *)
Definition overflowing : dict :=
  volume (VInt (1000000 * (2 ^ 1024 - 2 ^ 970))) (VFloat 0.8).
Definition largest : dict :=
  volume (VInt (1000000 * (2 ^ 1024 - 2 ^ 971)))
         (VFloat 0x1.fffffffffffffp+1023).

(** What the caller finds under the two computed keys of the mapping
    returned. *)
Definition scored (c : M dict) : option (pyval * pyval) :=
  match result c with
  | Returned r =>
      match r !! "liquidity_score", r !! "liquidity_signal" with
      | Some score, Some signal => Some (score, signal)
      | _, _ => None
      end
  | Raised _ => None
  end.

End Sample.

(** ** Facts on the exact arithmetic *)

Module F64Facts.
Import F64.

(** *** Division to the nearest integer *)

Lemma div_mod_pos (n d : Z) :
  0 < d -> n = d * (n / d) + n mod d /\ 0 <= n mod d < d.
Proof.
  intros Hd. split.
  - apply Z.div_mod. lia.
  - apply Z.mod_pos_bound. exact Hd.
Qed.

Ltac rne_cases n d :=
  unfold rne_div;
  let Hq := fresh "Hq" in
  let Hr := fresh "Hr" in
  let q := fresh "q" in
  let r := fresh "r" in
  let E := fresh "Ev" in
  destruct (div_mod_pos n d ltac:(assumption)) as [Hq Hr];
  set (q := n / d) in *; set (r := n mod d) in *;
  destruct (Z.compare_spec (2 * r) d);
  [ destruct (Z.even q) eqn:E | | ].

Lemma rne_div_floor (n d : Z) :
  0 < d -> n / d <= rne_div n d <= n / d + 1.
Proof. intros Hd. rne_cases n d; lia. Qed.

Lemma rne_div_nearest (n d : Z) :
  0 < d -> 2 * Z.abs (rne_div n d * d - n) <= d.
Proof. intros Hd. rne_cases n d; nia. Qed.

Lemma rne_div_tie (n d : Z) :
  0 < d -> 2 * Z.abs (rne_div n d * d - n) = d ->
  Z.even (rne_div n d) = true.
Proof.
  intros Hd. rne_cases n d; intros Ht; try nia.
  - exact Ev.
  - rewrite Z.even_add, Ev. reflexivity.
Qed.

Lemma rne_div_exact (k d : Z) : 0 < d -> rne_div (k * d) d = k.
Proof.
  intros Hd. unfold rne_div.
  rewrite Z.div_mul, Z.mod_mul by lia.
  destruct (Z.compare_spec (2 * 0) d); lia.
Qed.

Lemma rne_div_mono (n1 n2 d : Z) :
  0 < d -> n1 <= n2 -> rne_div n1 d <= rne_div n2 d.
Proof.
  intros Hd Hn.
  pose proof (Z.div_le_mono n1 n2 d Hd Hn) as Hq.
  destruct (Z.eq_dec (n1 / d) (n2 / d)) as [E | NE].
  - destruct (div_mod_pos n1 d Hd) as [H1 B1].
    destruct (div_mod_pos n2 d Hd) as [H2 B2].
    assert (Hr : n1 mod d <= n2 mod d) by (rewrite E in H1; lia).
    unfold rne_div. rewrite E.
    destruct (Z.compare_spec (2 * (n1 mod d)) d);
      destruct (Z.compare_spec (2 * (n2 mod d)) d);
      destruct (Z.even (n2 / d)); lia.
  - pose proof (rne_div_floor n1 d Hd). pose proof (rne_div_floor n2 d Hd). lia.
Qed.

Lemma rne_div_lower (n d k : Z) : 0 < d -> k * d <= n -> k <= rne_div n d.
Proof.
  intros Hd H. rewrite <- (rne_div_exact k d Hd). now apply rne_div_mono.
Qed.

Lemma rne_div_upper (n d k : Z) : 0 < d -> n <= k * d -> rne_div n d <= k.
Proof.
  intros Hd H. rewrite <- (rne_div_exact k d Hd). now apply rne_div_mono.
Qed.

Lemma rne_div_scale (c n d : Z) :
  0 < c -> 0 < d -> rne_div (c * n) (c * d) = rne_div n d.
Proof.
  intros Hc Hd. unfold rne_div.
  rewrite Z.div_mul_cancel_l, Z.mul_mod_distr_l by lia.
  replace (2 * (c * (n mod d))) with (c * (2 * (n mod d))) by ring.
  rewrite <- Zmult_compare_compat_l by lia. reflexivity.
Qed.

End F64Facts.

Module F64Round.
Import F64 F64Facts.

Lemma pow2_pos (k : Z) : 0 <= k -> 0 < 2 ^ k.
Proof. intros. apply Z.pow_pos_nonneg; lia. Qed.

Lemma pow2_split (a b : Z) : 0 <= a -> 0 <= b -> 2 ^ (a + b) = 2 ^ a * 2 ^ b.
Proof. intros. apply Z.pow_add_r; assumption. Qed.

Lemma pow2_le (a b : Z) : 0 <= a <= b -> 2 ^ a <= 2 ^ b.
Proof. intros. apply Z.pow_le_mono_r; lia. Qed.

Lemma pow2_lt_inv (a b : Z) : 0 <= a -> 0 <= b -> 2 ^ a < 2 ^ b -> a < b.
Proof. intros Ha Hb H. apply (Z.pow_lt_mono_r_iff 2); lia. Qed.

(** *** The binade of a ratio *)


Lemma ratio_shift_spec (n d : Z) :
  0 <= n -> 0 < d -> in_binade n d (ratio_shift n d).
Proof.
  intros Hn Hd. unfold in_binade, ratio_shift.
  set (s0 := Z.max 0 (Z.log2 n - Z.log2 d - 53)).
  assert (Hs0 : 0 <= s0) by lia.
  pose proof (Z.log2_nonneg n) as Ln. pose proof (Z.log2_nonneg d) as Ld.
  destruct (Z.log2_spec d Hd) as [Hd1 Hd2].
  destruct (Z.ltb_spec n (d * 2 ^ (s0 + 53))) as [Hlt | Hge].
  - split; [exact Hs0 | split; [exact Hlt |]].
    destruct (Z.eq_dec s0 0) as [-> | Hnz]; [now left | right].
    assert (Hs : s0 = Z.log2 n - Z.log2 d - 53) by lia.
    assert (Hnpos : 0 < n).
    { destruct (Z.eq_dec n 0) as [-> | ]; [| lia]. simpl in Hs. lia. }
    destruct (Z.log2_spec n Hnpos) as [Hn1 _].
    replace (Z.log2 n) with (Z.succ (Z.log2 d) + (s0 + 52)) in Hn1 by lia.
    rewrite pow2_split in Hn1 by lia.
    pose proof (pow2_pos (s0 + 52) ltac:(lia)).
    nia.
  - split; [lia | split; [| right]].
    + assert (Hnpos : 0 < n).
      { pose proof (pow2_pos (s0 + 53) ltac:(lia)). nia. }
      destruct (Z.log2_spec n Hnpos) as [_ Hn2].
      apply Z.lt_le_trans with (1 := Hn2).
      replace (s0 + 1 + 53) with (s0 + 54) by lia.
      apply Z.le_trans with (2 ^ Z.log2 d * 2 ^ (s0 + 54)).
      * rewrite <- pow2_split by lia. apply pow2_le. lia.
      * pose proof (pow2_pos (s0 + 54) ltac:(lia)). nia.
    + replace (s0 + 1 + 52) with (s0 + 53) by lia. exact Hge.
Qed.

Lemma in_binade_mono (n1 n2 d s1 s2 : Z) :
  0 < d -> n1 <= n2 -> in_binade n1 d s1 -> in_binade n2 d s2 -> s1 <= s2.
Proof.
  intros Hd Hn (H1 & _ & L1) (H2 & U2 & _).
  destruct L1 as [-> | L1]; [exact H2 |].
  assert (2 ^ (s1 + 52) < 2 ^ (s2 + 53)) by nia.
  apply pow2_lt_inv in H; lia.
Qed.

Lemma in_binade_unique (n d s1 s2 : Z) :
  0 < d -> in_binade n d s1 -> in_binade n d s2 -> s1 = s2.
Proof.
  intros Hd B1 B2.
  pose proof (in_binade_mono n n d s1 s2 Hd (Z.le_refl n) B1 B2).
  pose proof (in_binade_mono n n d s2 s1 Hd (Z.le_refl n) B2 B1).
  lia.
Qed.

Lemma in_binade_scale (c n d s : Z) :
  0 < c -> in_binade n d s -> in_binade (c * n) (c * d) s.
Proof.
  intros Hc (H0 & U & L). repeat split; [exact H0 | nia |].
  destruct L as [-> | L]; [now left | right; nia].
Qed.

Lemma ratio_shift_scale (c n d : Z) :
  0 < c -> 0 <= n -> 0 < d -> ratio_shift (c * n) (c * d) = ratio_shift n d.
Proof.
  intros Hc Hn Hd.
  apply (in_binade_unique (c * n) (c * d)); [nia | |].
  - apply ratio_shift_spec; nia.
  - apply in_binade_scale; [exact Hc |]. now apply ratio_shift_spec.
Qed.

(** *** Rounding to 53 bits *)


Lemma round_units_eq (n d : Z) :
  round_units n d = significand n d * 2 ^ ratio_shift n d.
Proof. reflexivity. Qed.

Lemma significand_bounds (n d : Z) :
  0 <= n -> 0 < d ->
  0 <= significand n d <= 2 ^ 53 /\
  (ratio_shift n d = 0 \/ 2 ^ 52 <= significand n d).
Proof.
  intros Hn Hd. unfold significand.
  destruct (ratio_shift_spec n d Hn Hd) as (Hs & U & L).
  set (s := ratio_shift n d) in *.
  pose proof (pow2_pos s Hs) as Hp.
  assert (Hds : 0 < d * 2 ^ s) by nia.
  split; [split |].
  - apply rne_div_lower; [exact Hds | lia].
  - apply rne_div_upper; [exact Hds |].
    replace (s + 53) with (53 + s) in U by lia.
    rewrite pow2_split in U by lia. nia.
  - destruct L as [L | L]; [now left | right].
    apply rne_div_lower; [exact Hds |].
    replace (s + 52) with (52 + s) in L by lia.
    rewrite pow2_split in L by lia. nia.
Qed.

Lemma round_units_nonneg (n d : Z) : 0 <= n -> 0 < d -> 0 <= round_units n d.
Proof.
  intros Hn Hd. rewrite round_units_eq.
  destruct (significand_bounds n d Hn Hd) as [[H _] _].
  destruct (ratio_shift_spec n d Hn Hd) as (Hs & _).
  pose proof (pow2_pos _ Hs). nia.
Qed.

Theorem round_units_mono (n1 n2 d : Z) :
  0 <= n1 -> n1 <= n2 -> 0 < d -> round_units n1 d <= round_units n2 d.
Proof.
  intros H1 H12 Hd.
  assert (H2 : 0 <= n2) by lia.
  pose proof (ratio_shift_spec n1 d H1 Hd) as B1.
  pose proof (ratio_shift_spec n2 d H2 Hd) as B2.
  pose proof (in_binade_mono _ _ _ _ _ Hd H12 B1 B2) as Hs.
  destruct (significand_bounds n1 d H1 Hd) as [[_ U1] _].
  destruct (significand_bounds n2 d H2 Hd) as [_ L2].
  rewrite !round_units_eq.
  destruct B1 as (S1 & _), B2 as (S2 & _).
  destruct (Z.eq_dec (ratio_shift n1 d) (ratio_shift n2 d)) as [E | NE].
  - unfold significand. rewrite E.
    pose proof (pow2_pos _ S2) as Hp.
    apply Z.mul_le_mono_nonneg_r; [lia |].
    apply rne_div_mono; [nia | exact H12].
  - destruct L2 as [L2 | L2]; [lia |].
    set (s1 := ratio_shift n1 d) in *. set (s2 := ratio_shift n2 d) in *.
    apply Z.le_trans with (2 ^ 53 * 2 ^ s1).
    { pose proof (pow2_pos s1 S1). nia. }
    apply Z.le_trans with (2 ^ 52 * 2 ^ s2).
    { rewrite <- !pow2_split by lia. apply pow2_le. lia. }
    pose proof (pow2_pos s2 S2). nia.
Qed.

Lemma round_units_scale (c n d : Z) :
  0 < c -> 0 <= n -> 0 < d -> round_units (c * n) (c * d) = round_units n d.
Proof.
  intros Hc Hn Hd. unfold round_units.
  rewrite ratio_shift_scale by assumption.
  destruct (ratio_shift_spec n d Hn Hd) as (Hs & _).
  pose proof (pow2_pos _ Hs).
  rewrite <- Z.mul_assoc, rne_div_scale by nia. reflexivity.
Qed.

(** *** Representable magnitudes *)


Lemma round_units_representable (n d : Z) :
  0 <= n -> 0 < d -> representable (round_units n d).
Proof.
  intros Hn Hd. rewrite round_units_eq.
  destruct (significand_bounds n d Hn Hd) as [[L U] _].
  destruct (ratio_shift_spec n d Hn Hd) as (Hs & _).
  destruct (Z.eq_dec (significand n d) (2 ^ 53)) as [E | NE].
  - exists (2 ^ 52), (ratio_shift n d + 1). rewrite E.
    split; [lia | split; [lia |]].
    rewrite pow2_split by lia. change (2 ^ 1) with 2. 
    change (2 ^ 53) with (2 ^ 52 * 2). ring.
  - exists (significand n d), (ratio_shift n d). split; [lia | split; [lia | reflexivity]].
Qed.

Theorem round_units_exact (k d : Z) :
  0 < d -> representable k -> round_units (k * d) d = k.
Proof.
  intros Hd (m & t & Ht & Hm & ->).
  pose proof (pow2_pos t Ht) as Hpt.
  assert (Hn : 0 <= m * 2 ^ t * d) by nia.
  destruct (ratio_shift_spec _ _ Hn Hd) as (Hs & U & L).
  unfold round_units. set (s := ratio_shift (m * 2 ^ t * d) d) in *.
  pose proof (pow2_pos s Hs) as Hps.
  assert (Hst : s <= t).
  { destruct L as [-> | L]; [exact Ht |].
    assert (Hle : 2 ^ (s + 52) <= m * 2 ^ t).
    { apply (Z.mul_le_mono_pos_l _ _ d Hd). lia. }
    assert (Hlt : 2 ^ (s + 52) < 2 ^ (53 + t)).
    { rewrite (pow2_split 53 t) by lia. nia. }
    apply pow2_lt_inv in Hlt; lia. }
  replace t with ((t - s) + s) by lia.
  rewrite (pow2_split (t - s) s) by lia.
  replace (m * (2 ^ (t - s) * 2 ^ s) * d) with (m * 2 ^ (t - s) * (d * 2 ^ s)) by ring.
  rewrite rne_div_exact by nia. ring.
Qed.

Lemma representable_small (k : Z) : 0 <= k <= 2 ^ 53 -> representable k.
Proof.
  intros H. destruct (Z.eq_dec k (2 ^ 53)) as [-> | NE].
  - exists (2 ^ 52), 1. split; [lia | split; [lia | reflexivity]].
  - exists k, 0. split; [lia | split; [lia |]]. change (2 ^ 0) with 1. ring.
Qed.

(** *** The overflow threshold, kept folded *)

Lemma overflow_pos : 0 < overflow_units.
Proof. apply pow2_pos. lia. Qed.

Lemma overflow_split (a b : Z) :
  0 <= a -> 0 <= b -> a + b = 2098 -> overflow_units = 2 ^ a * 2 ^ b.
Proof.
  intros Ha Hb E. unfold overflow_units. rewrite <- pow2_split by lia.
  f_equal. lia.
Qed.

Lemma two_units_below_overflow : 2 * 2 ^ unit_exp < overflow_units.
Proof.
  rewrite (overflow_split 1024 1074) by lia.
  pose proof (pow2_le 2 1024 ltac:(lia)) as H. change (2 ^ 2) with 4 in H.
  pose proof (pow2_pos 1074 ltac:(lia)). unfold unit_exp. nia.
Qed.

End F64Round.

(** ** Floats as counts of units *)

Module F64Repr.
Import F64 F64Facts F64Round.

Lemma digits2_log2 (p : positive) :
  Zpos (digits2_pos p) = Z.log2 (Zpos p) + 1.
Proof.
  induction p as [p IH | p IH |]; [| | reflexivity].
  - cbn [digits2_pos]. rewrite Pos2Z.inj_succ, IH.
    rewrite (Pos2Z.inj_xI p), Z.log2_succ_double by lia. lia.
  - cbn [digits2_pos]. rewrite Pos2Z.inj_succ, IH.
    rewrite (Pos2Z.inj_xO p), Z.log2_double by lia. lia.
Qed.


Lemma log2_lt_pow (m k : Z) : 0 < m -> 0 <= k -> (Z.log2 m < k <-> m < 2 ^ k).
Proof. intros. symmetry. apply Z.log2_lt_pow2; lia. Qed.

Lemma log2_ge_pow (m k : Z) : 0 < m -> 0 <= k -> (k <= Z.log2 m <-> 2 ^ k <= m).
Proof. intros. symmetry. apply Z.log2_le_pow2; lia. Qed.

Lemma bounded_canonical (m : positive) (e : Z) :
  bounded prec emax m e = true <-> canonical (Zpos m) e.
Proof.
  unfold bounded, canonical_mantissa, fexp, SpecFloat.emin, canonical, unit_exp.
  rewrite digits2_log2, andb_true_iff, Z.eqb_eq, Z.leb_le.
  change prec with 53. change emax with 1024.
  pose proof (log2_lt_pow (Zpos m) 53 ltac:(lia) ltac:(lia)).
  pose proof (log2_ge_pow (Zpos m) 52 ltac:(lia) ltac:(lia)).
  lia.
Qed.

(** A finite, valid float stays below the overflow threshold. *)
Lemma canonical_units_bound (m e : Z) :
  canonical m e -> 0 < m * 2 ^ (e + unit_exp) < overflow_units.
Proof.
  unfold canonical, unit_exp. intros (He & Hm & _).
  pose proof (pow2_pos (e + 1074) ltac:(lia)) as Hp.
  split; [nia |].
  apply Z.lt_le_trans with (2 ^ 53 * 2 ^ (e + 1074)); [nia |].
  rewrite (overflow_split 53 2045) by lia.
  apply Z.mul_le_mono_nonneg_l; [lia |]. apply pow2_le. lia.
Qed.

Lemma canonical_representable (m e : Z) :
  canonical m e -> representable (m * 2 ^ (e + unit_exp)).
Proof.
  unfold canonical, unit_exp. intros (He & Hm & _).
  exists m, (e + 1074). split; [lia | split; [lia | reflexivity]].
Qed.

(** The significand and exponent that [SF_of_units] picks. *)
Lemma representable_split (k : Z) :
  representable k -> 0 < k ->
  let s := Z.max 0 (Z.log2 k - 52) in
  k = k / 2 ^ s * 2 ^ s /\ 0 < k / 2 ^ s < 2 ^ 53 /\
  (s = 0 \/ 2 ^ 52 <= k / 2 ^ s).
Proof.
  intros (m & t & Ht & Hm & Hk) Hpos s.
  assert (Hs : 0 <= s) by lia.
  pose proof (pow2_pos s Hs) as Hps. pose proof (pow2_pos t Ht) as Hpt.
  destruct (Z.log2_spec k Hpos) as [Lo Hi].
  pose proof (Z.log2_nonneg k) as Hl.
  assert (Hst : s <= t).
  { destruct (Z.eq_dec s 0) as [-> | Hnz]; [exact Ht |].
    assert (E : Z.log2 k = s + 52) by lia. rewrite E in Lo.
    assert (Hlt : 2 ^ (s + 52) < 2 ^ (53 + t)).
    { rewrite (pow2_split 53 t) by lia. nia. }
    apply pow2_lt_inv in Hlt; lia. }
  assert (Hdiv : k = k / 2 ^ s * 2 ^ s).
  { rewrite Hk at 1 2. replace t with ((t - s) + s) at 1 2 by lia.
    rewrite (pow2_split (t - s) s) by lia.
    rewrite Z.mul_assoc, Z.div_mul by lia. reflexivity. }
  split; [exact Hdiv |].
  set (q := k / 2 ^ s) in *.
  destruct (Z.eq_dec s 0) as [E0 | Hnz].
  - rewrite E0 in *. change (2 ^ 0) with 1 in *.
    assert (Z.log2 k <= 52) by lia.
    assert (k < 2 ^ 53) by (apply log2_lt_pow; lia).
    split; [lia | now left].
  - assert (E : Z.log2 k = 52 + s) by lia.
    rewrite E in Lo. unfold Z.succ in Hi. rewrite E in Hi.
    replace (52 + s + 1) with (53 + s) in Hi by lia.
    rewrite pow2_split in Lo, Hi by lia.
    split; [nia | right; nia].
Qed.

Lemma SF_of_units_finite (neg : bool) (k : Z) :
  0 < k < overflow_units ->
  SF_of_units neg k =
    let s := Z.max 0 (Z.log2 k - 52) in
    S754_finite neg (Z.to_pos (k / 2 ^ s)) (s - unit_exp).
Proof.
  intros [H1 H2]. unfold SF_of_units.
  destruct (Z.leb_spec k 0); [lia |].
  destruct (Z.leb_spec overflow_units k); [lia | reflexivity].
Qed.

Lemma SF_of_units_canonical (k : Z) :
  representable k -> 0 < k < overflow_units ->
  let s := Z.max 0 (Z.log2 k - 52) in
  canonical (k / 2 ^ s) (s - unit_exp).
Proof.
  intros Hr Hk s. destruct (representable_split k Hr (proj1 Hk)) as (Hd & Hq & Hn).
  fold s in Hd, Hq, Hn. unfold canonical, unit_exp.
  split; [| split; [exact Hq | lia]].
  split; [lia |].
  assert (Z.log2 k < 2098).
  { apply log2_lt_pow; [lia | lia | exact (proj2 Hk)]. }
  lia.
Qed.

Theorem SF_of_units_valid (neg : bool) (k : Z) :
  representable k -> valid_binary (SF_of_units neg k) = true.
Proof.
  intros Hr. unfold SF_of_units.
  destruct (Z.leb_spec k 0); [reflexivity |].
  destruct (Z.leb_spec overflow_units k); [reflexivity |].
  pose proof (SF_of_units_canonical k Hr ltac:(lia)) as Hc. cbv zeta in Hc.
  cbn [SpecFloat.valid_binary]. apply bounded_canonical.
  rewrite Z2Pos.id; [exact Hc |]. destruct Hc as (_ & ? & _). lia.
Qed.

Theorem units_SF_of_units (neg : bool) (k : Z) :
  representable k -> 0 <= k < overflow_units ->
  units_SF (SF_of_units neg k) = cond_Zopp neg k.
Proof.
  intros Hr Hk. destruct (Z.eq_dec k 0) as [-> | Hnz].
  - destruct neg; reflexivity.
  - rewrite SF_of_units_finite by lia. cbv zeta.
    destruct (representable_split k Hr ltac:(lia)) as (Hd & Hq & _).
    cbn [units_SF]. rewrite Z2Pos.id by lia.
    replace (Z.max 0 (Z.log2 k - 52) - unit_exp + unit_exp)
      with (Z.max 0 (Z.log2 k - 52)) by lia.
    rewrite <- Hd. reflexivity.
Qed.

Lemma sign_SF_of_units (neg : bool) (k : Z) : sign_SF (SF_of_units neg k) = neg.
Proof.
  unfold SF_of_units.
  destruct (k <=? 0); [reflexivity |].
  destruct (overflow_units <=? k); reflexivity.
Qed.

(** A valid finite float is the float of its own units. *)
Lemma SF_of_units_units (s : bool) (m : positive) (e : Z) :
  canonical (Zpos m) e ->
  SF_of_units s (Zpos m * 2 ^ (e + unit_exp)) = S754_finite s m e.
Proof.
  intros Hc. pose proof (canonical_units_bound _ _ Hc) as Hb.
  rewrite SF_of_units_finite by exact Hb. cbv zeta.
  destruct Hc as (He & Hm & Hn). unfold unit_exp in *.
  set (t := e + 1074) in *.
  assert (Ht : 0 <= t) by lia.
  pose proof (pow2_pos t Ht) as Hpt.
  assert (Hl : Z.log2 (Zpos m * 2 ^ t) = Z.log2 (Zpos m) + t).
  { rewrite <- Z.shiftl_mul_pow2 by lia.
    rewrite Z.log2_shiftl by lia. reflexivity. }
  rewrite Hl.
  pose proof (log2_lt_pow (Zpos m) 53 ltac:(lia) ltac:(lia)) as Hlt.
  pose proof (log2_ge_pow (Zpos m) 52 ltac:(lia) ltac:(lia)) as Hge.
  pose proof (Z.log2_nonneg (Zpos m)).
  assert (Es : Z.max 0 (Z.log2 (Zpos m) + t - 52) = t) by lia.
  rewrite Es, Z.div_mul by lia.
  f_equal. lia.
Qed.

(** *** The order of floats *)


Lemma valid_finite_units (s : bool) (m : positive) (e : Z) :
  valid_binary (S754_finite s m e) = true ->
  canonical (Zpos m) e /\ 0 < Zpos m * 2 ^ (e + unit_exp) < overflow_units.
Proof.
  cbn [SpecFloat.valid_binary]. intros H%bounded_canonical.
  split; [exact H | now apply canonical_units_bound].
Qed.

Lemma compare_canonical (m1 m2 : positive) (e1 e2 : Z) :
  canonical (Zpos m1) e1 -> canonical (Zpos m2) e2 ->
  match e1 ?= e2 with
  | Lt => Lt
  | Gt => Gt
  | Eq => Pos.compare_cont Eq m1 m2
  end = (Zpos m1 * 2 ^ (e1 + unit_exp) ?= Zpos m2 * 2 ^ (e2 + unit_exp)).
Proof.
  intros (He1 & Hm1 & Hn1) (He2 & Hm2 & Hn2). unfold unit_exp in *.
  pose proof (pow2_pos (e1 + 1074) ltac:(lia)) as P1.
  pose proof (pow2_pos (e2 + 1074) ltac:(lia)) as P2.
  destruct (Z.compare_spec e1 e2) as [-> | Hlt | Hgt].
  - change (Pos.compare_cont Eq m1 m2) with (Zpos m1 ?= Zpos m2).
    apply Zmult_compare_compat_r. lia.
  - symmetry. apply Z.compare_lt_iff.
    apply Z.lt_le_trans with (2 ^ 53 * 2 ^ (e1 + 1074)); [nia |].
    apply Z.le_trans with (2 ^ 52 * 2 ^ (e2 + 1074)); [| nia].
    rewrite <- !pow2_split by lia. apply pow2_le. lia.
  - symmetry. apply Z.compare_gt_iff.
    apply Z.lt_le_trans with (2 ^ 53 * 2 ^ (e2 + 1074)); [nia |].
    apply Z.le_trans with (2 ^ 52 * 2 ^ (e1 + 1074)); [| nia].
    rewrite <- !pow2_split by lia. apply pow2_le. lia.
Qed.

Theorem SFcompare_key (x y : spec_float) :
  valid_binary x = true -> valid_binary y = true ->
  is_nan_SF x = false -> is_nan_SF y = false ->
  SFcompare x y = Some (key x ?= key y).
Proof.
  intros Vx Vy Nx Ny.
  destruct x as [sx | sx | | sx mx ex]; try discriminate Nx;
    destruct y as [sy | sy | | sy my ey]; try discriminate Ny;
    try (apply valid_finite_units in Vx; destruct Vx as [Cx Bx]);
    try (apply valid_finite_units in Vy; destruct Vy as [Cy By]);
    cbn [SFcompare key units_SF cond_Zopp];
    try (destruct sx); try (destruct sy); cbn [cond_Zopp];
    try reflexivity;
    try (f_equal; symmetry;
         first [ apply Z.compare_lt_iff | apply Z.compare_gt_iff ];
         pose proof overflow_pos; lia).
  - f_equal. rewrite Z.compare_opp.
    rewrite (Z.compare_antisym (Zpos mx * 2 ^ (ex + unit_exp))).
    rewrite <- (compare_canonical mx my ex ey) by assumption.
    destruct (ex ?= ey); reflexivity.
  - rewrite compare_canonical by assumption. reflexivity.
Qed.

End F64Repr.

(** ** Order and rounding on the primitive floats *)

Module F64Order.
Import F64 F64Facts F64Round F64Repr.


Lemma signed_mono (G : Z -> Z) :
  (forall a b, 0 <= a -> a <= b -> G a <= G b) ->
  (forall a, 0 <= a -> 0 <= G a) ->
  forall k1 k2, k1 <= k2 -> signed G k1 <= signed G k2.
Proof.
  intros Hm Hp k1 k2 Hk. unfold signed.
  destruct (Z.ltb_spec k1 0), (Z.ltb_spec k2 0); cbn [cond_Zopp].
  - pose proof (Hm (Z.abs k2) (Z.abs k1) ltac:(lia) ltac:(lia)). lia.
  - pose proof (Hp (Z.abs k1) ltac:(lia)). pose proof (Hp (Z.abs k2) ltac:(lia)). lia.
  - lia.
  - apply Hm; lia.
Qed.

Lemma signed_bound (G : Z -> Z) (b : Z) :
  (forall a, 0 <= a -> 0 <= G a <= b) ->
  forall k, - b <= signed G k <= b.
Proof.
  intros H k. unfold signed. pose proof (H (Z.abs k) ltac:(lia)).
  destruct (k <? 0); cbn [cond_Zopp]; lia.
Qed.


Lemma key_SF_of_units (neg : bool) (k : Z) :
  representable k -> 0 <= k ->
  key (SF_of_units neg k) = cond_Zopp neg (clamp k).
Proof.
  intros Hr Hk. unfold clamp.
  destruct (Z.lt_ge_cases k overflow_units) as [Hlt | Hge].
  - rewrite Z.min_l by lia.
    pose proof (units_SF_of_units neg k Hr ltac:(lia)) as Hu.
    destruct (SF_of_units neg k) eqn:E; cbn [key]; try exact Hu.
    unfold SF_of_units in E.
    destruct (k <=? 0); [discriminate |].
    destruct (Z.leb_spec overflow_units k); [lia | discriminate].
  - rewrite Z.min_r by lia. unfold SF_of_units.
    destruct (Z.leb_spec k 0); [pose proof overflow_pos; lia |].
    destruct (Z.leb_spec overflow_units k); [reflexivity | lia].
Qed.

Lemma SF_of_units_not_nan (neg : bool) (k : Z) :
  is_nan_SF (SF_of_units neg k) = false.
Proof.
  unfold SF_of_units.
  destruct (k <=? 0); [reflexivity |].
  destruct (overflow_units <=? k); reflexivity.
Qed.

Lemma finite_SF_of_units (neg : bool) (k : Z) :
  k < overflow_units -> finite_SF (SF_of_units neg k) = true.
Proof.
  intros H. unfold SF_of_units.
  destruct (k <=? 0); [reflexivity |].
  destruct (Z.leb_spec overflow_units k); [lia | reflexivity].
Qed.

Lemma Prim2SF_of_units (neg : bool) (k : Z) :
  representable k -> Prim2SF (of_units neg k) = SF_of_units neg k.
Proof.
  intros Hr. unfold of_units. apply Prim2SF_SF2Prim.
  now apply SF_of_units_valid.
Qed.

(** The keys of valid floats are within the overflow threshold, and
    strictly so for the finite ones. *)
Lemma key_bound (x : spec_float) :
  valid_binary x = true -> - overflow_units <= key x <= overflow_units.
Proof.
  intros V. destruct x as [s | s | | s m e]; cbn [key units_SF];
    try (pose proof overflow_pos; lia).
  - destruct s; cbn [cond_Zopp]; pose proof overflow_pos; lia.
  - apply valid_finite_units in V. destruct V as [_ B].
    destruct s; cbn [cond_Zopp]; lia.
Qed.

Lemma key_finite_bound (x : spec_float) :
  valid_binary x = true -> finite_SF x = true ->
  - overflow_units < key x < overflow_units.
Proof.
  intros V F. destruct x as [s | s | | s m e]; try discriminate F;
    cbn [key units_SF].
  - pose proof overflow_pos; lia.
  - apply valid_finite_units in V. destruct V as [_ B].
    destruct s; cbn [cond_Zopp]; lia.
Qed.

Lemma key_units (x : spec_float) : finite_SF x = true -> key x = units_SF x.
Proof. destruct x; try discriminate; reflexivity. Qed.

(** The sign of a finite float is the sign of its units, zeros apart. *)
Lemma units_sign (x : spec_float) :
  valid_binary x = true -> finite_SF x = true ->
  units_SF x = cond_Zopp (sign_SF x) (Z.abs (units_SF x)).
Proof.
  intros V F. destruct x as [s | s | | s m e]; try discriminate F.
  - destruct s; reflexivity.
  - apply valid_finite_units in V. destruct V as [_ B].
    cbn [units_SF sign_SF]. destruct s; cbn [cond_Zopp]; lia.
Qed.

(** *** Comparisons *)

Lemma ltb_key (x y : float) :
  is_nan_SF (Prim2SF x) = false -> is_nan_SF (Prim2SF y) = false ->
  (x <? y)%float = (key (Prim2SF x) <? key (Prim2SF y)).
Proof.
  intros Nx Ny. rewrite ltb_spec. unfold SFltb.
  rewrite SFcompare_key by (try apply Prim2SF_valid; assumption).
  unfold Z.ltb. destruct (key (Prim2SF x) ?= key (Prim2SF y)); reflexivity.
Qed.

Lemma leb_key (x y : float) :
  is_nan_SF (Prim2SF x) = false -> is_nan_SF (Prim2SF y) = false ->
  (x <=? y)%float = (key (Prim2SF x) <=? key (Prim2SF y)).
Proof.
  intros Nx Ny. rewrite leb_spec. unfold SFleb.
  rewrite SFcompare_key by (try apply Prim2SF_valid; assumption).
  unfold Z.leb. destruct (key (Prim2SF x) ?= key (Prim2SF y)); reflexivity.
Qed.

Lemma SFcompare_nan_l (y : spec_float) : SFcompare S754_nan y = None.
Proof. destruct y; reflexivity. Qed.

Lemma SFcompare_nan_r (x : spec_float) : SFcompare x S754_nan = None.
Proof. destruct x; reflexivity. Qed.

Lemma leb_true_not_nan (x y : float) :
  (x <=? y)%float = true ->
  is_nan_SF (Prim2SF x) = false /\ is_nan_SF (Prim2SF y) = false.
Proof.
  rewrite leb_spec. unfold SFleb.
  destruct (Prim2SF x), (Prim2SF y); cbn; intros H; try discriminate H; auto.
Qed.

Lemma ltb_nan_r (x y : float) :
  is_nan_SF (Prim2SF y) = true -> (x <? y)%float = false.
Proof.
  rewrite ltb_spec. unfold SFltb. destruct (Prim2SF y); try discriminate.
  now rewrite SFcompare_nan_r.
Qed.

(** [x >= 2] on a float is the comparison of the hardware. *)
Theorem float_ge_int_2 (x : float) : Py.float_ge_int x 2 = (2 <=? x)%float.
Proof.
  unfold Py.float_ge_int.
  destruct (is_nan_SF (Prim2SF x)) eqn:N.
  - rewrite leb_spec. unfold SFleb.
    destruct (Prim2SF x); try discriminate N. now rewrite SFcompare_nan_r.
  - rewrite leb_key by (try exact N; reflexivity).
    pose proof (Prim2SF_valid x) as V.
    change (key (Prim2SF 2)) with (2 * 2 ^ unit_exp).
    destruct (Prim2SF x) as [s | s | | s m e]; try discriminate N;
      try reflexivity.
    cbn [key]. destruct s; cbn [cond_Zopp negb]; symmetry.
    + apply Z.leb_gt. pose proof two_units_below_overflow. pose proof overflow_pos.
      pose proof (pow2_pos unit_exp ltac:(unfold unit_exp; lia)). lia.
    + apply Z.leb_le. pose proof two_units_below_overflow. lia.
Qed.

End F64Order.

(** ** The standard library's rounding, read as [round_units] *)

Module F64Hardware.
Import F64 F64Facts F64Round F64Repr F64Order.


Lemma located_exact (m d : Z) : 0 < d -> located (m * d) d m loc_Exact.
Proof.
  intros Hd. split; [lia |]. now rewrite Z.eqb_refl.
Qed.

Lemma located_scale (c n d m : Z) (l : location) :
  0 < c -> (located (c * n) (c * d) m l <-> located n d m l).
Proof.
  intros Hc. unfold located.
  replace (2 * (c * n - m * (c * d))) with (c * (2 * (n - m * d))) by ring.
  rewrite <- Zmult_compare_compat_l by lia.
  replace (m * (c * d)) with (c * (m * d)) by ring.
  replace ((m + 1) * (c * d)) with (c * ((m + 1) * d)) by ring.
  assert (E : (c * n =? c * (m * d)) = (n =? m * d)).
  { destruct (Z.eqb_spec n (m * d)) as [-> | NE]; [apply Z.eqb_refl |].
    apply Z.eqb_neq. nia. }
  rewrite E. split; intros [H1 H2]; (split; [nia | exact H2]).
Qed.

Lemma located_ratio (n1 d1 n2 d2 m : Z) (l : location) :
  0 < d1 -> 0 < d2 -> n1 * d2 = n2 * d1 ->
  located n1 d1 m l -> located n2 d2 m l.
Proof.
  intros H1 H2 E L.
  apply (located_scale d1); [exact H1 |].
  apply (located_scale d2) in L; [| exact H2].
  replace (d1 * n2) with (d2 * n1) by lia.
  replace (d1 * d2) with (d2 * d1) by ring. exact L.
Qed.

Lemma round_nearest_even_located (n d m : Z) (l : location) :
  0 < d -> located n d m l -> round_nearest_even m l = rne_div n d.
Proof.
  intros Hd [Hb Hl].
  assert (Hq : n / d = m) by (symmetry; apply (Z.div_unique n d m (n - m * d)); lia).
  assert (Hr : n mod d = n - m * d) by (rewrite Z.mod_eq, Hq by lia; ring).
  unfold rne_div. rewrite Hq, Hr. subst l.
  destruct (Z.eqb_spec n (m * d)) as [E | NE].
  - cbn. destruct (Z.compare_spec (2 * (n - m * d)) d); lia.
  - cbn. destruct (2 * (n - m * d) ?= d); reflexivity.
Qed.

(** One step of the shift with rounding bits keeps the location. *)
Lemma shr_1_located (n d : Z) (mrs : shr_record) :
  0 < d -> 0 <= shr_m mrs ->
  located n d (shr_m mrs) (loc_of_shr_record mrs) ->
  0 <= shr_m (shr_1 mrs) /\
  located n (2 * d) (shr_m (shr_1 mrs)) (loc_of_shr_record (shr_1 mrs)).
Proof.
  intros Hd Hm [Hb Hl]. destruct mrs as [m r s]. cbn [shr_m] in *.
  assert (Hrs : orb r s = false <-> n = m * d).
  { destruct (Z.eqb_spec n (m * d)); destruct r, s; cbn in Hl |- *;
      try discriminate Hl; split; intros; try discriminate; try lia; auto. }
  clear Hl.
  destruct m as [| p | p]; [| | lia].
  - cbn [shr_1 shr_m]. split; [lia |]. unfold located.
    destruct (orb r s) eqn:E.
    + assert (n <> 0) by (intros ->; destruct Hrs as [_ H]; discriminate H; lia).
      destruct (Z.eqb_spec n (0 * (2 * d))); [lia |].
      destruct r, s; try discriminate E; cbn;
        (split; [lia |]); f_equal; symmetry; apply Z.compare_lt_iff; lia.
    + assert (n = 0) by (destruct Hrs as [H _]; specialize (H eq_refl); lia).
      subst n. destruct r, s; try discriminate E. cbn. split; [lia | reflexivity].
  - destruct p as [p | p |]; cbn [shr_1 shr_m]; (split; [lia |]); unfold located.
    + (* odd significand: the dropped bit is set *)
      destruct (Z.eqb_spec n (Zpos p * (2 * d))); [lia |].
      destruct (orb r s) eqn:E; cbn [loc_of_shr_record].
      * assert (n <> Zpos p~1 * d) by (intros ->; destruct Hrs as [_ H]; discriminate H; reflexivity).
        split; [lia |]. f_equal. symmetry. apply Z.compare_gt_iff. lia.
      * assert (n = Zpos p~1 * d) by (apply Hrs; reflexivity).
        split; [lia |]. f_equal. symmetry. apply Z.compare_eq_iff. lia.
    + destruct (orb r s) eqn:E; cbn [loc_of_shr_record].
      * assert (n <> Zpos p~0 * d) by (intros ->; destruct Hrs as [_ H]; discriminate H; reflexivity).
        destruct (Z.eqb_spec n (Zpos p * (2 * d))); [lia |].
        split; [lia |]. f_equal. symmetry. apply Z.compare_lt_iff. lia.
      * assert (n = Zpos p~0 * d) by (apply Hrs; reflexivity).
        destruct (Z.eqb_spec n (Zpos p * (2 * d))); [| lia].
        split; [lia | reflexivity].
    + destruct (Z.eqb_spec n (0 * (2 * d))); [lia |].
      destruct (orb r s) eqn:E; cbn [loc_of_shr_record].
      * assert (n <> 1 * d) by (intros ->; destruct Hrs as [_ H]; discriminate H; reflexivity).
        split; [lia |]. f_equal. symmetry. apply Z.compare_gt_iff. lia.
      * assert (n = 1 * d) by (apply Hrs; reflexivity).
        split; [lia |]. f_equal. symmetry. apply Z.compare_eq_iff. lia.
Qed.

Lemma iter_shr_1_located (p : positive) :
  forall (n d : Z) (mrs : shr_record),
  0 < d -> 0 <= shr_m mrs ->
  located n d (shr_m mrs) (loc_of_shr_record mrs) ->
  0 <= shr_m (iter_pos shr_1 p mrs) /\
  located n (d * 2 ^ Zpos p) (shr_m (iter_pos shr_1 p mrs))
    (loc_of_shr_record (iter_pos shr_1 p mrs)).
Proof.
  induction p as [p IH | p IH |]; intros n d mrs Hd Hm HL; cbn [iter_pos].
  - destruct (shr_1_located n d mrs Hd Hm HL) as [M1 L1].
    pose proof (pow2_pos (Zpos p) ltac:(lia)) as Hp.
    destruct (IH n (2 * d) _ ltac:(lia) M1 L1) as [M2 L2].
    destruct (IH n (2 * d * 2 ^ Zpos p) _ ltac:(nia) M2 L2) as [M3 L3].
    split; [exact M3 |].
    replace (d * 2 ^ Zpos p~1) with (2 * d * 2 ^ Zpos p * 2 ^ Zpos p); [exact L3 |].
    replace (Zpos p~1) with (1 + Zpos p + Zpos p) by lia.
    rewrite !pow2_split by lia. change (2 ^ 1) with 2. ring.
  - pose proof (pow2_pos (Zpos p) ltac:(lia)) as Hp.
    destruct (IH n d _ Hd Hm HL) as [M2 L2].
    destruct (IH n (d * 2 ^ Zpos p) _ ltac:(nia) M2 L2) as [M3 L3].
    split; [exact M3 |].
    replace (d * 2 ^ Zpos p~0) with (d * 2 ^ Zpos p * 2 ^ Zpos p); [exact L3 |].
    replace (Zpos p~0) with (Zpos p + Zpos p) by lia.
    rewrite !pow2_split by lia. ring.
  - destruct (shr_1_located n d mrs Hd Hm HL) as [M1 L1].
    split; [exact M1 |]. change (2 ^ 1) with 2.
    replace (d * 2) with (2 * d) by ring. exact L1.
Qed.

Lemma shr_located (n d e k : Z) (mrs : shr_record) :
  0 < d -> 0 <= shr_m mrs ->
  located n d (shr_m mrs) (loc_of_shr_record mrs) ->
  snd (shr mrs e k) = e + Z.max 0 k /\
  0 <= shr_m (fst (shr mrs e k)) /\
  located n (d * 2 ^ Z.max 0 k) (shr_m (fst (shr mrs e k)))
    (loc_of_shr_record (fst (shr mrs e k))).
Proof.
  intros Hd Hm HL. destruct k as [| p | p]; cbn [shr fst snd].
  - rewrite Z.max_l, Z.add_0_r, Z.mul_1_r by lia. auto.
  - rewrite Z.max_r by lia.
    destruct (iter_shr_1_located p n d mrs Hd Hm HL). auto.
  - rewrite Z.max_l, Z.add_0_r, Z.mul_1_r by lia. auto.
Qed.

Lemma shr_record_of_loc_m (m : Z) (l : location) :
  shr_m (shr_record_of_loc m l) = m.
Proof. destruct l as [| []]; reflexivity. Qed.

Lemma shr_record_of_loc_loc (m : Z) (l : location) :
  loc_of_shr_record (shr_record_of_loc m l) = l.
Proof. destruct l as [| []]; reflexivity. Qed.

Lemma Zdigits2_log2 (m : Z) : 0 < m -> Zdigits2 m = Z.log2 m + 1.
Proof. destruct m; try lia. intros _. apply digits2_log2. Qed.

Lemma Zdigits2_bounds (m : Z) :
  0 < m -> 1 <= Zdigits2 m /\ 2 ^ (Zdigits2 m - 1) <= m < 2 ^ Zdigits2 m.
Proof.
  intros Hm. rewrite Zdigits2_log2 by exact Hm.
  pose proof (Z.log2_nonneg m). destruct (Z.log2_spec m Hm) as [Lo Hi].
  replace (Z.log2 m + 1 - 1) with (Z.log2 m) by lia. unfold Z.succ in Hi. lia.
Qed.

Lemma fexp_eq (x : Z) : fexp prec emax x = Z.max (x - 53) (- 1074).
Proof. reflexivity. Qed.

Lemma shr_fexp_keep (m e : Z) :
  0 <= m < 2 ^ 53 -> - 1074 <= e ->
  shr_fexp prec emax m e loc_Exact =
    ({| shr_m := m; shr_r := false; shr_s := false |}, e).
Proof.
  intros Hm He. unfold shr_fexp. rewrite fexp_eq.
  assert (Hg : Zdigits2 m <= 53).
  { destruct (Z.eq_dec m 0) as [-> | NZ]; [cbn; lia |].
    rewrite Zdigits2_log2 by lia.
    pose proof (log2_lt_pow m 53 ltac:(lia) ltac:(lia)). lia. }
  destruct (Z.max (Zdigits2 m + e - 53) (- 1074) - e) eqn:E; try reflexivity. lia.
Qed.

Lemma shr_fexp_carry (e : Z) :
  - 1074 <= e ->
  shr_fexp prec emax (2 ^ 53) e loc_Exact =
    ({| shr_m := 2 ^ 52; shr_r := false; shr_s := false |}, e + 1).
Proof.
  intros He. unfold shr_fexp. rewrite fexp_eq.
  change (Zdigits2 (2 ^ 53)) with 54.
  replace (Z.max (54 + e - 53) (- 1074) - e) with 1 by lia. reflexivity.
Qed.

(** The core of every rounded operation: [mx] counts multiples of
    [2^ex] and [lx] locates the exact value, which is [N / D] units. *)
Theorem binary_round_aux_units (sx : bool) (mx ex : Z) (lx : location) (N D : Z) :
  0 < D -> 0 <= N -> 0 <= mx ->
  located (N * 2 ^ Z.max 0 (- (ex + unit_exp))) (D * 2 ^ Z.max 0 (ex + unit_exp)) mx lx ->
  ex <= fexp prec emax (Zdigits2 mx + ex) ->
  binary_round_aux prec emax sx mx ex lx = SF_of_units sx (round_units N D).
Proof.
  intros HD HN Hmx HL Hex. unfold unit_exp in HL.
  set (a := Z.max 0 (ex + 1074)) in *. set (b := Z.max 0 (- (ex + 1074))) in *.
  set (e1 := fexp prec emax (Zdigits2 mx + ex)) in *.
  assert (He1 : e1 = Z.max (Zdigits2 mx + ex - 53) (- 1074)) by reflexivity.
  set (s := e1 + 1074).
  assert (Hs : 0 <= s) by lia.
  pose proof (pow2_pos a ltac:(lia)) as Pa. pose proof (pow2_pos b ltac:(lia)) as Pb.
  pose proof (pow2_pos s Hs) as Ps.
  (* the first shift *)
  assert (Hsh : exists m' l',
    shr_fexp prec emax mx ex lx = (m', e1) /\ 0 <= shr_m m' /\
    loc_of_shr_record m' = l' /\ located N (D * 2 ^ s) (shr_m m') l').
  { unfold shr_fexp. fold e1.
    destruct (shr_located (N * 2 ^ b) (D * 2 ^ a) ex (e1 - ex) (shr_record_of_loc mx lx))
      as (E1 & M1 & L1).
    - nia.
    - now rewrite shr_record_of_loc_m.
    - now rewrite shr_record_of_loc_m, shr_record_of_loc_loc.
    - destruct (shr (shr_record_of_loc mx lx) ex (e1 - ex)) as [m' e'] eqn:E.
      cbn [fst snd] in *. exists m', (loc_of_shr_record m').
      split; [f_equal; lia | split; [exact M1 | split; [reflexivity |]]].
      rewrite Z.max_r in L1 by lia.
      pose proof (pow2_pos (e1 - ex) ltac:(lia)) as Pk.
      eapply located_ratio; [| | | exact L1]; [nia | nia |].
      replace (N * 2 ^ b * (D * 2 ^ s)) with (N * D * (2 ^ b * 2 ^ s)) by ring.
      replace (N * (D * 2 ^ a * 2 ^ (e1 - ex))) with (N * D * (2 ^ a * 2 ^ (e1 - ex))) by ring.
      rewrite <- !pow2_split by lia. do 2 f_equal. lia. }
  destruct Hsh as (m' & l' & Esh & Hm' & El' & HL').
  (* the exponent is the one [round_units] picks *)
  assert (Hbin : in_binade N D s).
  { destruct HL as [[Lo Hi] _]. unfold in_binade. split; [exact Hs |].
    destruct (Z.eq_dec mx 0) as [-> | NZ].
    - cbn in He1. assert (s = 0) by lia. assert (a = 0) by lia.
      replace (2 ^ a) with 1 in Hi by (now subst a; rewrite H0).
      split; [| now left]. rewrite H. change (2 ^ (0 + 53)) with (2 ^ 53). nia.
    - destruct (Zdigits2_bounds mx ltac:(lia)) as (G1 & G2 & G3).
      set (g := Zdigits2 mx) in *.
      pose proof (pow2_pos (g - 1) ltac:(lia)) as Pg1.
      split.
      + apply (Z.mul_lt_mono_pos_r (2 ^ b)); [exact Pb |].
        apply Z.lt_le_trans with (1 := Hi).
        apply Z.le_trans with (2 ^ g * (D * 2 ^ a)); [nia |].
        replace (2 ^ g * (D * 2 ^ a)) with (D * (2 ^ g * 2 ^ a)) by ring.
        replace (D * 2 ^ (s + 53) * 2 ^ b) with (D * (2 ^ (s + 53) * 2 ^ b)) by ring.
        rewrite <- !pow2_split by lia.
        apply Z.mul_le_mono_nonneg_l; [lia |]. apply pow2_le. lia.
      + destruct (Z.eq_dec s 0) as [-> | NZs]; [now left | right].
        apply (Z.mul_le_mono_pos_r _ _ (2 ^ b)); [exact Pb |].
        apply Z.le_trans with (2 := Lo).
        apply Z.le_trans with (2 ^ (g - 1) * (D * 2 ^ a)); [| nia].
        replace (2 ^ (g - 1) * (D * 2 ^ a)) with (D * (2 ^ (g - 1) * 2 ^ a)) by ring.
        replace (D * 2 ^ (s + 52) * 2 ^ b) with (D * (2 ^ (s + 52) * 2 ^ b)) by ring.
        rewrite <- !pow2_split by lia.
        apply Z.mul_le_mono_nonneg_l; [lia |]. apply pow2_le. lia. }
  assert (Es : ratio_shift N D = s).
  { apply (in_binade_unique N D); [exact HD | | exact Hbin].
    now apply ratio_shift_spec. }
  assert (Em : round_nearest_even (shr_m m') (loc_of_shr_record m') = significand N D).
  { unfold significand. rewrite Es, El'.
    apply round_nearest_even_located; [nia | exact HL']. }
  destruct (significand_bounds N D HN HD) as [[B0 B1] B2]. rewrite Es in B2.
  unfold binary_round_aux. rewrite Esh, Em, round_units_eq, Es.
  set (m2 := significand N D) in *.
  destruct (Z.eq_dec m2 (2 ^ 53)) as [E53 | N53].
  - (* the significand carried into the next binade *)
    rewrite E53, shr_fexp_carry by lia. cbn [shr_m].
    change (2 ^ 52) with (Zpos (Z.to_pos (2 ^ 52))) at 1. cbv iota.
    change (emax - prec) with 971.
    replace (2 ^ 53 * 2 ^ s) with (Zpos (Z.to_pos (2 ^ 52)) * 2 ^ (e1 + 1 + unit_exp)).
    2:{ unfold unit_exp. replace (e1 + 1 + 1074) with (1 + s) by lia.
        rewrite pow2_split by lia.
        change (2 ^ 53) with (Zpos (Z.to_pos (2 ^ 52)) * 2 ^ 1). ring. }
    destruct (Z.leb_spec (e1 + 1) 971) as [Hle | Hgt].
    + apply eq_sym, SF_of_units_units.
      unfold canonical, unit_exp. cbn. lia.
    + unfold SF_of_units, unit_exp.
      pose proof (pow2_pos (e1 + 1 + 1074) ltac:(lia)).
      destruct (Z.leb_spec (Zpos (Z.to_pos (2 ^ 52)) * 2 ^ (e1 + 1 + 1074)) 0); [lia |].
      destruct (Z.leb_spec overflow_units (Zpos (Z.to_pos (2 ^ 52)) * 2 ^ (e1 + 1 + 1074)));
        [reflexivity |].
      exfalso.
      assert (overflow_units <= Zpos (Z.to_pos (2 ^ 52)) * 2 ^ (e1 + 1 + 1074)); [| lia].
      rewrite (overflow_split 52 2046) by lia.
      apply Z.mul_le_mono_nonneg_l; [lia | apply pow2_le; lia].
  - rewrite shr_fexp_keep by lia. cbn [shr_m].
    destruct (Z.eq_dec m2 0) as [E0 | NZ].
    + rewrite E0. reflexivity.
    + destruct m2 as [| p | p] eqn:Ep; [lia | | lia].
      change (emax - prec) with 971.
      replace (2 ^ s) with (2 ^ (e1 + unit_exp)) by reflexivity.
      destruct (Z.leb_spec e1 971) as [Hle | Hgt].
      * apply eq_sym, SF_of_units_units. unfold canonical, unit_exp. lia.
      * unfold SF_of_units, unit_exp. fold s.
        destruct (Z.leb_spec (Zpos p * 2 ^ s) 0); [nia |].
        destruct (Z.leb_spec overflow_units (Zpos p * 2 ^ s)); [reflexivity |].
        exfalso.
        assert (overflow_units <= Zpos p * 2 ^ s); [| lia].
        rewrite (overflow_split 52 2046) by lia.
        apply Z.mul_le_mono_nonneg; [lia | lia | | apply pow2_le; lia].
        apply Z.pow_nonneg. lia.
Qed.

End F64Hardware.

(** ** Hardware addition and division are the written-out ones *)

Module F64Ops.
Import F64 F64Facts F64Round F64Repr F64Order F64Hardware.

Lemma pos_iter_xO (m d : positive) :
  Zpos (Pos.iter xO m d) = Zpos m * 2 ^ Zpos d.
Proof.
  induction d as [| d IH] using Pos.peano_ind.
  - cbn [Pos.iter]. change (2 ^ 1) with 2. lia.
  - rewrite Pos.iter_succ, Pos2Z.inj_xO, IH, Pos2Z.inj_succ.
    unfold Z.succ. rewrite pow2_split by lia. change (2 ^ 1) with 2. ring.
Qed.

Lemma shl_align_spec (mx : positive) (ex ex' : Z) :
  snd (shl_align mx ex ex') = Z.min ex ex' /\
  Zpos (fst (shl_align mx ex ex')) = Zpos mx * 2 ^ (ex - Z.min ex ex').
Proof.
  unfold shl_align. destruct (ex' - ex) as [| d | d] eqn:E; cbn [fst snd].
  - rewrite Z.min_l by lia. rewrite Z.sub_diag. change (2 ^ 0) with 1. lia.
  - rewrite Z.min_l by lia. rewrite Z.sub_diag. change (2 ^ 0) with 1. lia.
  - rewrite Z.min_r by lia. split; [reflexivity |].
    rewrite pos_iter_xO. do 2 f_equal. lia.
Qed.

Lemma log2_mul_pow2 (m k : Z) : 0 < m -> 0 <= k -> Z.log2 (m * 2 ^ k) = Z.log2 m + k.
Proof.
  intros Hm Hk. rewrite <- Z.shiftl_mul_pow2 by lia.
  apply Z.log2_shiftl; lia.
Qed.

Theorem binary_round_units (sx : bool) (mx : positive) (ex : Z) :
  - unit_exp <= ex ->
  binary_round prec emax sx mx ex =
    SF_of_units sx (round_units (Zpos mx * 2 ^ (ex + unit_exp)) 1).
Proof.
  unfold unit_exp. intros Hex. unfold binary_round.
  set (f := fexp prec emax (Zpos (digits2_pos mx) + ex)).
  assert (Hf : - 1074 <= f) by (unfold f; rewrite fexp_eq; lia).
  destruct (shl_align_spec mx ex f) as [E1 E2].
  destruct (shl_align mx ex f) as [mz ez]. cbn [fst snd] in E1, E2.
  assert (Hk : 0 <= ex - ez) by lia.
  pose proof (pow2_pos (ex - ez) Hk) as Pk.
  assert (HN : Zpos mx * 2 ^ (ex + 1074) = Zpos mz * 2 ^ (ez + 1074)).
  { rewrite E2, <- E1, <- Z.mul_assoc, <- pow2_split by lia. do 2 f_equal. lia. }
  apply binary_round_aux_units; unfold unit_exp; try lia.
  - rewrite (Z.max_l 0) by lia. rewrite (Z.max_r 0) by lia.
    change (2 ^ 0) with 1. rewrite Z.mul_1_r, Z.mul_1_l, HN.
    apply located_exact. apply pow2_pos. lia.
  - replace (Zdigits2 (Zpos mz) + ez) with (Zpos (digits2_pos mx) + ex).
    + fold f. lia.
    + cbn [Zdigits2]. rewrite !digits2_log2, E2, <- E1.
      rewrite log2_mul_pow2 by lia. lia.
Qed.

Lemma round_units_0 (d : Z) : 0 < d -> round_units 0 d = 0.
Proof. intros Hd. apply (round_units_exact 0 d Hd), representable_small. lia. Qed.

Lemma binary_normalize_units (k e : Z) :
  - unit_exp <= e ->
  binary_normalize prec emax k e false =
    SF_of_units (k <? 0) (round_units (Z.abs k * 2 ^ (e + unit_exp)) 1).
Proof.
  intros He. destruct k as [| p | p]; cbn [binary_normalize].
  - cbn [Z.abs Z.mul]. rewrite round_units_0 by lia. reflexivity.
  - now apply binary_round_units.
  - now apply binary_round_units.
Qed.

(** A valid finite float is what its units round to. *)
Lemma SF_of_units_round_self (x : spec_float) :
  valid_binary x = true -> finite_SF x = true -> is_nan_SF x = false ->
  units_SF x <> 0 ->
  SF_of_units (units_SF x <? 0) (round_units (Z.abs (units_SF x)) 1) = x.
Proof.
  intros V F _ NZ. destruct x as [s | s | | s m e]; try discriminate F.
  - now cbn in NZ.
  - apply valid_finite_units in V. destruct V as [C B].
    cbn [units_SF].
    assert (Ea : Z.abs (cond_Zopp s (Zpos m * 2 ^ (e + unit_exp))) = Zpos m * 2 ^ (e + unit_exp))
      by (destruct s; cbn [cond_Zopp]; lia).
    assert (Es : (cond_Zopp s (Zpos m * 2 ^ (e + unit_exp)) <? 0) = s).
    { destruct s; cbn [cond_Zopp]; [apply Z.ltb_lt | apply Z.ltb_ge]; lia. }
    rewrite Ea, Es.
    rewrite <- (Z.mul_1_r (Zpos m * 2 ^ (e + unit_exp))) at 1.
    rewrite round_units_exact by (try lia; now apply canonical_representable).
    now apply SF_of_units_units.
Qed.

Theorem SFadd_units (x y : spec_float) :
  valid_binary x = true -> valid_binary y = true ->
  SF64add x y = add_SF x y.
Proof.
  intros Vx Vy. unfold SF64add.
  destruct x as [sx | sx | | sx mx ex]; destruct y as [sy | sy | | sy my ey];
    try reflexivity;
    try (destruct sx, sy; reflexivity).
  - (* 0 + y *)
    cbn [SFadd add_SF]. rewrite Z.add_0_l. symmetry.
    apply SF_of_units_round_self; try reflexivity; [exact Vy |].
    apply valid_finite_units in Vy. destruct Vy as [_ B].
    cbn [units_SF]. destruct sy; cbn [cond_Zopp]; lia.
  - (* x + 0 *)
    cbn [SFadd add_SF]. replace (units_SF (S754_zero sy)) with 0 by reflexivity.
    rewrite Z.add_0_r. symmetry.
    apply SF_of_units_round_self; try reflexivity; [exact Vx |].
    apply valid_finite_units in Vx. destruct Vx as [_ B].
    cbn [units_SF]. destruct sx; cbn [cond_Zopp]; lia.
  - (* two finite numbers *)
    cbn [SFadd add_SF].
    apply valid_finite_units in Vx, Vy.
    destruct Vx as [(Hx & _) _], Vy as [(Hy & _) _]. unfold unit_exp in *.
    set (ez := Z.min ex ey).
    destruct (shl_align_spec mx ex ez) as [_ Ax].
    destruct (shl_align_spec my ey ez) as [_ Ay].
    rewrite Z.min_r in Ax, Ay by lia.
    rewrite Ax, Ay, binary_normalize_units by (unfold unit_exp; lia).
    unfold unit_exp. cbn [units_SF].
    set (W := 2 ^ (ez + 1074)).
    assert (PW : 0 < W) by (apply pow2_pos; lia).
    assert (Ex : Zpos mx * 2 ^ (ex + 1074) = Zpos mx * 2 ^ (ex - ez) * W).
    { unfold W. rewrite <- Z.mul_assoc, <- pow2_split by lia. do 2 f_equal. lia. }
    assert (Ey : Zpos my * 2 ^ (ey + 1074) = Zpos my * 2 ^ (ey - ez) * W).
    { unfold W. rewrite <- Z.mul_assoc, <- pow2_split by lia. do 2 f_equal. lia. }
    unfold unit_exp. rewrite Ex, Ey.
    set (A := Zpos mx * 2 ^ (ex - ez)). set (B := Zpos my * 2 ^ (ey - ez)).
    assert (Ek : cond_Zopp sx (A * W) + cond_Zopp sy (B * W)
                 = (cond_Zopp sx A + cond_Zopp sy B) * W)
      by (destruct sx, sy; cbn [cond_Zopp]; ring).
    rewrite Ek. set (S := cond_Zopp sx A + cond_Zopp sy B).
    f_equal.
    + destruct (Z.ltb_spec S 0), (Z.ltb_spec (S * W) 0); try reflexivity; nia.
    + f_equal. rewrite Z.abs_mul, (Z.abs_eq W) by lia. reflexivity.
Qed.

Theorem add_units (x y : float) :
  Prim2SF (x + y) = add_SF (Prim2SF x) (Prim2SF y).
Proof. rewrite add_spec. apply SFadd_units; apply Prim2SF_valid. Qed.

End F64Ops.

Module F64Div.
Import F64 F64Facts F64Round F64Repr F64Order F64Hardware F64Ops.

Lemma new_location_spec (d r : Z) :
  0 < d -> 0 <= r < d ->
  new_location d r = if r =? 0 then loc_Exact else loc_Inexact (2 * r ?= d).
Proof.
  intros Hd Hr. unfold new_location.
  destruct (Z.even d) eqn:Ev; [reflexivity |].
  unfold new_location_odd. destruct (r =? 0); [reflexivity |]. f_equal.
  assert (Hodd : Z.odd d = true) by (rewrite <- Z.negb_even, Ev; reflexivity).
  apply Z.odd_spec in Hodd. destruct Hodd as [k Hk].
  destruct (Z.compare_spec (2 * r + 1) d), (Z.compare_spec (2 * r) d);
    try reflexivity; lia.
Qed.

(** The quotient, exponent and location that [SFdiv] rounds. *)
Lemma SFdiv_core_located (mx my : positive) (ex ey : Z) :
  canonical (Zpos mx) ex -> canonical (Zpos my) ey ->
  exists q e' l,
    SFdiv_core_binary prec emax (Zpos mx) ex (Zpos my) ey = (q, e', l) /\
    0 <= q /\ e' <= ex - ey /\
    located (Zpos mx * 2 ^ (ex - ey - e')) (Zpos my) q l /\
    e' <= fexp prec emax (Zdigits2 q + e').
Proof.
  intros Cx Cy. unfold SFdiv_core_binary.
  set (d1 := Zdigits2 (Zpos mx)). set (d2 := Zdigits2 (Zpos my)).
  set (t := d1 + ex - (d2 + ey)).
  set (e' := Z.min (fexp prec emax t) (ex - ey)).
  set (s := ex - ey - e').
  assert (Hs : 0 <= s) by lia.
  pose proof (pow2_pos s Hs) as Ps.
  set (m' := match s with Zpos _ => Z.shiftl (Zpos mx) s | 0 => Zpos mx | Zneg _ => 0 end).
  assert (Em : m' = Zpos mx * 2 ^ s).
  { unfold m'. destruct s as [| p | p] eqn:E; [| | lia].
    - change (2 ^ 0) with 1. lia.
    - apply Z.shiftl_mul_pow2. lia. }
  pose proof (Z_div_mod m' (Zpos my) ltac:(lia)) as Hdm.
  destruct (Z.div_eucl m' (Zpos my)) as [q r]. destruct Hdm as [Hq Hr].
  assert (Hq0 : 0 <= q) by nia.
  exists q, e', (new_location (Zpos my) r).
  split; [reflexivity | split; [exact Hq0 | split; [lia | split]]].
  - fold s. rewrite <- Em. split; [nia |].
    rewrite new_location_spec by lia.
    replace (m' - q * Zpos my) with r by lia.
    destruct (Z.eqb_spec r 0), (Z.eqb_spec m' (q * Zpos my)); try reflexivity; lia.
  - rewrite fexp_eq.
    destruct (Z.le_gt_cases e' (- 1074)) as [Hlo | Hhi]; [lia |].
    assert (Ee : e' <= t - 53) by (unfold e' in *; rewrite fexp_eq in *; lia).
    destruct (Zdigits2_bounds (Zpos mx) ltac:(lia)) as (G1 & L1 & U1).
    destruct (Zdigits2_bounds (Zpos my) ltac:(lia)) as (G2 & L2 & U2).
    fold d1 in G1, L1, U1. fold d2 in G2, L2, U2.
    set (j := d1 - 1 + s - d2).
    assert (Hj : 52 <= j) by (unfold j, s, t in *; lia).
    assert (Hqj : 2 ^ j <= q).
    { assert (H1 : 2 ^ j * 2 ^ d2 <= m').
      { rewrite Em, <- pow2_split by lia.
        replace (j + d2) with ((d1 - 1) + s) by (unfold j; lia).
        rewrite pow2_split by lia. nia. }
      pose proof (pow2_pos j ltac:(lia)).
      assert (2 ^ j * Zpos my < (q + 1) * Zpos my) by nia.
      nia. }
    assert (Hlog : j <= Z.log2 q).
    { pose proof (pow2_pos j ltac:(lia)). apply log2_ge_pow; lia. }
    rewrite Zdigits2_log2 by (pose proof (pow2_pos j ltac:(lia)); lia).
    unfold j, s, t in *. lia.
Qed.

Theorem SFdiv_units (x y : spec_float) :
  valid_binary x = true -> valid_binary y = true ->
  SF64div x y = div_SF x y.
Proof.
  intros Vx Vy. unfold SF64div.
  destruct x as [sx | sx | | sx mx ex]; destruct y as [sy | sy | | sy my ey];
    try reflexivity.
  apply valid_finite_units in Vx, Vy.
  destruct Vx as [Cx Bx], Vy as [Cy By].
  destruct (SFdiv_core_located mx my ex ey Cx Cy) as (q & e' & l & E & Hq & He & HL & Hp).
  cbn [SFdiv div_SF sign_SF units_SF]. rewrite E.
  assert (Ax : Z.abs (cond_Zopp sx (Zpos mx * 2 ^ (ex + unit_exp))) = Zpos mx * 2 ^ (ex + unit_exp))
    by (destruct sx; cbn [cond_Zopp]; lia).
  assert (Ay : Z.abs (cond_Zopp sy (Zpos my * 2 ^ (ey + unit_exp))) = Zpos my * 2 ^ (ey + unit_exp))
    by (destruct sy; cbn [cond_Zopp]; lia).
  rewrite Ax, Ay.
  destruct Cx as (Hx & _), Cy as (Hy & _). unfold unit_exp in *.
  pose proof (pow2_pos (ex + 1074) ltac:(lia)) as Px.
  pose proof (pow2_pos (ey + 1074) ltac:(lia)) as Py.
  apply binary_round_aux_units; unfold unit_exp; try nia.
  set (a := Z.max 0 (e' + 1074)). set (b := Z.max 0 (- (e' + 1074))).
  pose proof (pow2_pos a ltac:(lia)) as Pa. pose proof (pow2_pos b ltac:(lia)) as Pb.
  eapply located_ratio; [| | | exact HL]; [lia | nia |].
  replace (Zpos mx * 2 ^ (ex - ey - e') * (Zpos my * 2 ^ (ey + 1074) * 2 ^ a))
    with (Zpos mx * Zpos my * (2 ^ (ex - ey - e') * (2 ^ (ey + 1074) * 2 ^ a))) by ring.
  replace (Zpos mx * 2 ^ (ex + 1074) * 2 ^ 1074 * 2 ^ b * Zpos my)
    with (Zpos mx * Zpos my * (2 ^ (ex + 1074) * (2 ^ 1074 * 2 ^ b))) by ring.
  rewrite <- !pow2_split by lia. do 2 f_equal. lia.
Qed.

Theorem div_units (x y : float) :
  Prim2SF (x / y) = div_SF (Prim2SF x) (Prim2SF y).
Proof. rewrite div_spec. apply SFdiv_units; apply Prim2SF_valid. Qed.

End F64Div.

(** ** [round_units] picks a nearest representable number *)

Module F64Nearest.
Import F64 F64Facts F64Round.

(** Among the multiples of [d], the one [rne_div] picks is nearest to [n]. *)
Lemma rne_div_nearest_multiple (n d j : Z) :
  0 < d -> Z.abs (rne_div n d * d - n) <= Z.abs (j * d - n).
Proof.
  intros Hd. pose proof (rne_div_nearest n d Hd) as H.
  destruct (Z.eq_dec j (rne_div n d)) as [-> | NE]; [lia |].
  assert (d <= Z.abs ((j - rne_div n d) * d)) by nia.
  nia.
Qed.

Theorem round_units_nearest (n d k : Z) :
  0 <= n -> 0 < d -> representable k ->
  Z.abs (round_units n d * d - n) <= Z.abs (k * d - n).
Proof.
  intros Hn Hd (m & t & Ht & Hm & ->).
  rewrite round_units_eq. unfold significand.
  destruct (ratio_shift_spec n d Hn Hd) as (Hs & U & L).
  set (s := ratio_shift n d) in *.
  pose proof (pow2_pos s Hs) as Ps. pose proof (pow2_pos t Ht) as Pt.
  assert (HD : 0 < d * 2 ^ s) by nia.
  destruct (Z.le_gt_cases s t) as [Hst | Hts].
  - (* [k] is a multiple of [2^s] *)
    replace t with ((t - s) + s) by lia. rewrite pow2_split by lia.
    replace (m * (2 ^ (t - s) * 2 ^ s) * d) with (m * 2 ^ (t - s) * (d * 2 ^ s)) by ring.
    replace (rne_div n (d * 2 ^ s) * 2 ^ s * d)
      with (rne_div n (d * 2 ^ s) * (d * 2 ^ s)) by ring.
    apply rne_div_nearest_multiple. exact HD.
  - (* [k] lies in a lower binade, below [n] *)
    destruct L as [L | L]; [lia |].
    pose proof (rne_div_nearest_multiple n (d * 2 ^ s) (2 ^ 52) HD) as H52.
    replace (rne_div n (d * 2 ^ s) * 2 ^ s * d)
      with (rne_div n (d * 2 ^ s) * (d * 2 ^ s)) by ring.
    apply Z.le_trans with (1 := H52).
    replace (s + 52) with (52 + s) in L by lia. rewrite pow2_split in L by lia.
    assert (Hk : m * 2 ^ t <= 2 ^ 52 * 2 ^ s).
    { apply Z.le_trans with (2 ^ 53 * 2 ^ t); [nia |].
      rewrite <- !pow2_split by lia. apply pow2_le. lia. }
    nia.
Qed.

(** On a tie the significand kept is even. *)
Theorem round_units_tie_even (n d : Z) :
  0 <= n -> 0 < d ->
  2 * Z.abs (round_units n d * d - n) = d * 2 ^ ratio_shift n d ->
  Z.even (significand n d) = true.
Proof.
  intros Hn Hd. rewrite round_units_eq. unfold significand.
  destruct (ratio_shift_spec n d Hn Hd) as (Hs & _).
  pose proof (pow2_pos _ Hs) as Ps. intros H.
  apply rne_div_tie; [nia |].
  etransitivity; [| exact H]. f_equal. f_equal. ring.
Qed.

End F64Nearest.

(** ** Facts on the built-ins *)

Module PyFacts.
Import F64 F64Facts F64Round F64Repr F64Order F64Hardware F64Ops F64Div F64Nearest.

Lemma unit_pos : 0 < 2 ^ unit_exp.
Proof. apply pow2_pos. unfold unit_exp. lia. Qed.

Lemma representable_shift (k t : Z) :
  0 <= t -> representable k -> representable (k * 2 ^ t).
Proof.
  intros Ht (m & s & Hs & Hm & ->). exists m, (s + t).
  split; [lia | split; [exact Hm |]]. rewrite pow2_split by lia. ring.
Qed.

(** *** [a / b] on integers *)


Lemma quotient_units_mono (b a1 a2 : Z) :
  0 < b -> 0 <= a1 -> a1 <= a2 -> quotient_units b a1 <= quotient_units b a2.
Proof.
  intros Hb H1 H12. pose proof unit_pos. unfold quotient_units.
  apply round_units_mono; nia.
Qed.

Lemma quotient_units_nonneg (b a : Z) : 0 < b -> 0 <= a -> 0 <= quotient_units b a.
Proof.
  intros Hb Ha. pose proof unit_pos. apply round_units_nonneg; nia.
Qed.

Lemma int_true_divide_units (a b : Z) (q : float) :
  0 < b -> Py.int_true_divide a b = Returned q ->
  quotient_units b (Z.abs a) < overflow_units /\
  Prim2SF q = SF_of_units (a <? 0) (quotient_units b (Z.abs a)).
Proof.
  intros Hb. unfold Py.int_true_divide.
  destruct (Z.eqb_spec b 0); [lia |].
  rewrite (Z.abs_eq b) by lia. fold (quotient_units b (Z.abs a)).
  destruct (Z.leb_spec overflow_units (quotient_units b (Z.abs a))); [discriminate |].
  intros [= <-]. split; [assumption |].
  replace (b <? 0) with false by (symmetry; apply Z.ltb_ge; lia).
  rewrite xorb_false_r. apply Prim2SF_of_units.
  pose proof unit_pos. apply round_units_representable; nia.
Qed.

Lemma int_true_divide_key (a b : Z) (q : float) :
  0 < b -> Py.int_true_divide a b = Returned q ->
  finite_SF (Prim2SF q) = true /\
  key (Prim2SF q) = signed (quotient_units b) a.
Proof.
  intros Hb H. destruct (int_true_divide_units a b q Hb H) as [Hlt E].
  pose proof unit_pos as HU.
  assert (Hr : representable (quotient_units b (Z.abs a)))
    by (apply round_units_representable; nia).
  assert (H0 : 0 <= quotient_units b (Z.abs a))
    by (apply quotient_units_nonneg; lia).
  rewrite E. split; [now apply finite_SF_of_units |].
  rewrite key_SF_of_units by assumption.
  unfold clamp, signed. rewrite Z.min_l by lia. reflexivity.
Qed.

(** *** [float(n)] *)

Lemma small_units_below_overflow (k : Z) :
  0 <= k <= 2 ^ 53 -> k * 2 ^ unit_exp < overflow_units.
Proof.
  intros Hk. pose proof unit_pos as HU.
  rewrite (overflow_split 1024 1074) by lia.
  assert (H : 2 ^ 53 < 2 ^ 1024) by (apply Z.pow_lt_mono_r; lia).
  change (2 ^ 1074) with (2 ^ unit_exp).
  apply Z.mul_lt_mono_pos_r; [exact HU |].
  apply Z.le_lt_trans with (2 ^ 53); [apply Hk | exact H].
Qed.

Lemma float_of_int_exact (n : Z) :
  Z.abs n <= 2 ^ 53 ->
  exists x, Py.float_of_int n = Returned x /\
    Prim2SF x = SF_of_units (n <? 0) (Z.abs n * 2 ^ unit_exp).
Proof.
  intros Hn. unfold Py.float_of_int. pose proof unit_pos as HU.
  assert (Hr : representable (Z.abs n * 2 ^ unit_exp)).
  { apply representable_shift; [unfold unit_exp; lia |].
    apply representable_small. lia. }
  assert (Er : round_units (Z.abs n * 2 ^ unit_exp) 1 = Z.abs n * 2 ^ unit_exp).
  { rewrite <- (Z.mul_1_r (Z.abs n * 2 ^ unit_exp)) at 1.
    apply round_units_exact; [lia | exact Hr]. }
  rewrite Er.
  assert (Hlt : Z.abs n * 2 ^ unit_exp < overflow_units)
    by (apply small_units_below_overflow; lia).
  destruct (Z.leb_spec overflow_units (Z.abs n * 2 ^ unit_exp)); [lia |].
  eexists. split; [reflexivity |]. now apply Prim2SF_of_units.
Qed.

(** Within 53 bits, dividing the converted integer by the float
    [1000000.0] is the division of the two integers. *)
Theorem true_divide_as_float_division (n : Z) :
  Z.abs n <= 2 ^ 53 ->
  exists x q,
    Py.float_of_int n = Returned x /\
    Py.int_true_divide n 1000000 = Returned q /\
    (x / 1000000)%float = q.
Proof.
  intros Hn. destruct (float_of_int_exact n Hn) as (x & Ex & Px).
  pose proof unit_pos as HU.
  assert (Hq0 : 0 <= quotient_units 1000000 (Z.abs n))
    by (apply quotient_units_nonneg; lia).
  assert (Hq : quotient_units 1000000 (Z.abs n) <= 2 ^ 53 * 2 ^ unit_exp).
  { unfold quotient_units.
    apply Z.le_trans with (round_units (2 ^ 53 * 2 ^ unit_exp * 1000000) 1000000).
    - apply round_units_mono; nia.
    - rewrite round_units_exact; [lia | lia |].
      apply representable_shift; [unfold unit_exp; lia |].
      apply representable_small. lia. }
  assert (Hlt : quotient_units 1000000 (Z.abs n) < overflow_units).
  { apply Z.le_lt_trans with (1 := Hq). apply small_units_below_overflow. lia. }
  assert (Hr : representable (quotient_units 1000000 (Z.abs n)))
    by (apply round_units_representable; nia).
  exists x. eexists. split; [exact Ex |]. split.
  - unfold Py.int_true_divide. cbn [Z.eqb]. change (Z.abs 1000000) with 1000000.
    fold (quotient_units 1000000 (Z.abs n)).
    destruct (Z.leb_spec overflow_units (quotient_units 1000000 (Z.abs n))); [lia |].
    reflexivity.
  - apply Prim2SF_inj. rewrite div_units, Px.
    change (1000000 <? 0) with false. rewrite xorb_false_r.
    rewrite Prim2SF_of_units by exact Hr.
    assert (E6 : Prim2SF 1000000 = S754_finite false 8589934592000000 (- 33))
      by reflexivity.
    rewrite E6.
    destruct (Z.eq_dec n 0) as [-> | NZ].
    + cbn [Z.abs Z.mul Z.ltb Z.compare]. unfold quotient_units.
      cbn [Z.mul Z.abs]. rewrite round_units_0 by lia. reflexivity.
    + assert (Hpos : 0 < Z.abs n * 2 ^ unit_exp) by nia.
      assert (Hov : Z.abs n * 2 ^ unit_exp < overflow_units)
        by (apply small_units_below_overflow; lia).
      assert (Hrn : representable (Z.abs n * 2 ^ unit_exp)).
      { apply representable_shift; [unfold unit_exp; lia |].
        apply representable_small. lia. }
      pose proof (units_SF_of_units (n <? 0) _ Hrn ltac:(lia)) as Un.
      pose proof (sign_SF_of_units (n <? 0) (Z.abs n * 2 ^ unit_exp)) as Sn.
      rewrite SF_of_units_finite in * by lia. cbv zeta in *.
      cbn [div_SF sign_SF]. rewrite xorb_false_r.
      rewrite Un. f_equal.
      assert (E : units_SF (S754_finite false 8589934592000000 (- 33))
                  = 1000000 * 2 ^ unit_exp) by reflexivity.
      rewrite E.
      assert (Ea : Z.abs (cond_Zopp (n <? 0) (Z.abs n * 2 ^ unit_exp))
                   = Z.abs n * 2 ^ unit_exp)
        by (destruct (n <? 0); cbn [cond_Zopp]; lia).
      rewrite Ea, (Z.abs_eq (1000000 * 2 ^ unit_exp)) by lia.
      unfold quotient_units.
      replace (Z.abs n * 2 ^ unit_exp * 2 ^ unit_exp)
        with (2 ^ unit_exp * (Z.abs n * 2 ^ unit_exp)) by ring.
      replace (1000000 * 2 ^ unit_exp) with (2 ^ unit_exp * 1000000) by ring.
      apply round_units_scale; lia.
Qed.

End PyFacts.

(** ** Rounding, truncation and order of the scores *)

Module PyOrder.
Import F64 F64Facts F64Round F64Repr F64Order F64Hardware F64Ops F64Div F64Nearest PyFacts.

(** *** [round(x, ndigits)] *)

Lemma pow10_pos (n : N) : 0 < 10 ^ Z.of_N n.
Proof. apply Z.pow_pos_nonneg; lia. Qed.

Lemma decimal_units_representable (p u : Z) :
  0 < p -> 0 <= u -> representable (decimal_units p u).
Proof.
  intros Hp Hu. pose proof unit_pos as HU. unfold decimal_units.
  apply round_units_representable; [| exact Hp].
  assert (0 <= rne_div (u * p) (2 ^ unit_exp)) by (apply rne_div_lower; nia).
  nia.
Qed.

Lemma decimal_units_nonneg (p u : Z) : 0 < p -> 0 <= u -> 0 <= decimal_units p u.
Proof.
  intros Hp Hu. pose proof unit_pos as HU. unfold decimal_units.
  apply round_units_nonneg; [| exact Hp].
  assert (0 <= rne_div (u * p) (2 ^ unit_exp)) by (apply rne_div_lower; nia).
  nia.
Qed.

Lemma decimal_units_mono (p u1 u2 : Z) :
  0 < p -> 0 <= u1 -> u1 <= u2 -> decimal_units p u1 <= decimal_units p u2.
Proof.
  intros Hp H1 H12. pose proof unit_pos as HU. unfold decimal_units.
  assert (0 <= rne_div (u1 * p) (2 ^ unit_exp)) by (apply rne_div_lower; nia).
  assert (rne_div (u1 * p) (2 ^ unit_exp) <= rne_div (u2 * p) (2 ^ unit_exp))
    by (apply rne_div_mono; nia).
  apply round_units_mono; nia.
Qed.

Lemma float_round_finite (x : float) (ndigits : N) :
  finite_SF (Prim2SF x) = true ->
  Prim2SF (Py.float_round x ndigits) =
    SF_of_units (sign_SF (Prim2SF x))
      (decimal_units (10 ^ Z.of_N ndigits) (Z.abs (units_SF (Prim2SF x)))).
Proof.
  intros F. unfold Py.float_round.
  destruct (Prim2SF x); try discriminate F;
    apply Prim2SF_of_units, decimal_units_representable;
    try apply pow10_pos; lia.
Qed.

Lemma float_round_other (x : float) (ndigits : N) :
  finite_SF (Prim2SF x) = false -> Py.float_round x ndigits = x.
Proof.
  unfold Py.float_round. destruct (Prim2SF x); try discriminate; reflexivity.
Qed.

(** [round] is rounding to decimal places, ties to even. *)
Theorem float_round_half_even (x : float) (ndigits : N) :
  Spec.rounded_half_even ndigits x (Py.float_round x ndigits).
Proof.
  unfold Spec.rounded_half_even.
  destruct (finite_SF (Prim2SF x)) eqn:F.
  - pose proof (float_round_finite x ndigits F) as E.
    pose proof unit_pos as HU. pose proof (pow10_pos ndigits) as HP.
    set (p := 10 ^ Z.of_N ndigits) in *.
    set (u := Z.abs (units_SF (Prim2SF x))) in *.
    assert (Hu : 0 <= u) by (unfold u; lia).
    assert (Hn : 0 <= rne_div (u * p) (2 ^ unit_exp)) by (apply rne_div_lower; nia).
    assert (G : exists n : Z,
      Spec.nearest_even_integer (u * p) (2 ^ unit_exp) n /\
      Spec.nearest_float (sign_SF (Prim2SF x)) n p (Py.float_round x ndigits)).
    { exists (rne_div (u * p) (2 ^ unit_exp)). split.
      - split; [now apply rne_div_nearest | now apply rne_div_tie].
      - exists (decimal_units p u). split; [| split].
        + now apply decimal_units_representable.
        + exact E.
        + intros k' Hk'. unfold decimal_units.
          apply round_units_nearest; [nia | exact HP | exact Hk']. }
    destruct (Prim2SF x); try discriminate F; exact G.
  - rewrite float_round_other by exact F.
    destruct (Prim2SF x); try discriminate F; reflexivity.
Qed.

(** *** [int(x)] of a float *)

Theorem int_of_float_truncates (x : float) (n : Z) :
  Py.int_of_float x = Returned n ->
  finite x = true /\
  Z.abs n * 2 ^ unit_exp <= Z.abs (units x) < (Z.abs n + 1) * 2 ^ unit_exp /\
  (0 <= units x -> 0 <= n) /\ (units x <= 0 -> n <= 0).
Proof.
  unfold Py.int_of_float, finite, units. pose proof unit_pos as HU.
  assert (Q : forall u, let q := Z.quot u (2 ^ unit_exp) in
    Z.abs q * 2 ^ unit_exp <= Z.abs u < (Z.abs q + 1) * 2 ^ unit_exp /\
    (0 <= u -> 0 <= q) /\ (u <= 0 -> q <= 0)).
  { intros u q. pose proof (Z.quot_rem' u (2 ^ unit_exp)) as E.
    pose proof (Z.rem_bound_abs u (2 ^ unit_exp) ltac:(lia)) as B.
    fold q in E.
    destruct (Z.le_gt_cases 0 u) as [P | Ng].
    - pose proof (Z.rem_nonneg u (2 ^ unit_exp) ltac:(lia) P).
      pose proof (Z.quot_pos u (2 ^ unit_exp) P ltac:(lia)). fold q in H0. nia.
    - pose proof (Z.rem_nonpos u (2 ^ unit_exp) ltac:(lia) ltac:(lia)).
      assert (q <= 0).
      { unfold q. rewrite <- (Z.opp_involutive u), Z.quot_opp_l by lia.
        pose proof (Z.quot_pos (- u) (2 ^ unit_exp) ltac:(lia) ltac:(lia)). lia. }
      nia. }
  destruct (Prim2SF x) as [s | s | | s m e]; intros [= <-];
    (split; [reflexivity | apply Q]).
Qed.

(** *** Keys of sums and of rounded values *)

Lemma lift_key_mono (F : Z -> Z) (x y : spec_float) :
  (forall a b, a <= b -> F a <= F b) ->
  (forall a, - overflow_units <= F a <= overflow_units) ->
  valid_binary x = true -> valid_binary y = true ->
  is_nan_SF x = false -> is_nan_SF y = false ->
  key x <= key y -> lift_key F x <= lift_key F y.
Proof.
  intros Hm Hb Vx Vy Nx Ny Hk. unfold lift_key.
  destruct (finite_SF x) eqn:Fx, (finite_SF y) eqn:Fy.
  - now apply Hm.
  - pose proof (key_finite_bound x Vx Fx). pose proof (Hb (key x)).
    destruct y as [| [] | |]; try discriminate Fy; try discriminate Ny;
      cbn [key cond_Zopp] in *; lia.
  - pose proof (key_finite_bound y Vy Fy). pose proof (Hb (key y)).
    destruct x as [| [] | |]; try discriminate Fx; try discriminate Nx;
      cbn [key cond_Zopp] in *; lia.
  - exact Hk.
Qed.


Lemma sum_units_mono (k1 k2 : Z) : k1 <= k2 -> sum_units k1 <= sum_units k2.
Proof.
  apply signed_mono.
  - intros a b Ha Hab. unfold clamp.
    pose proof (round_units_mono a b 1 Ha Hab ltac:(lia)). lia.
  - intros a Ha. unfold clamp. pose proof overflow_pos.
    pose proof (round_units_nonneg a 1 Ha ltac:(lia)). lia.
Qed.

Lemma sum_units_bound (k : Z) : - overflow_units <= sum_units k <= overflow_units.
Proof.
  apply signed_bound. intros a Ha. unfold clamp. pose proof overflow_pos.
  pose proof (round_units_nonneg a 1 Ha ltac:(lia)). lia.
Qed.

Lemma add_key (x y : float) :
  finite_SF (Prim2SF x) = true -> is_nan_SF (Prim2SF y) = false ->
  is_nan_SF (Prim2SF (x + y)) = false /\
  key (Prim2SF (x + y)) =
    lift_key (fun k => sum_units (key (Prim2SF x) + k)) (Prim2SF y).
Proof.
  intros Fx Ny. rewrite add_units.
  assert (G : forall k, 
    is_nan_SF (SF_of_units (k <? 0) (round_units (Z.abs k) 1)) = false /\
    key (SF_of_units (k <? 0) (round_units (Z.abs k) 1)) = sum_units k).
  { intros k. split; [apply SF_of_units_not_nan |].
    rewrite key_SF_of_units; [reflexivity | |].
    - apply round_units_representable; lia.
    - apply round_units_nonneg; lia. }
  unfold lift_key.
  destruct (Prim2SF x) as [sx | sx | | sx mx ex]; try discriminate Fx;
    destruct (Prim2SF y) as [sy | sy | | sy my ey]; try discriminate Ny;
    cbn [add_SF finite_SF];
    try (split; reflexivity);
    try apply G.
Qed.


Lemma rounded_units_mono (p k1 k2 : Z) :
  0 < p -> k1 <= k2 -> rounded_units p k1 <= rounded_units p k2.
Proof.
  intros Hp. apply signed_mono.
  - intros a b Ha Hab. unfold clamp.
    pose proof (decimal_units_mono p a b Hp Ha Hab). lia.
  - intros a Ha. unfold clamp. pose proof overflow_pos.
    pose proof (decimal_units_nonneg p a Hp Ha). lia.
Qed.

Lemma rounded_units_bound (p k : Z) :
  0 < p -> - overflow_units <= rounded_units p k <= overflow_units.
Proof.
  intros Hp. apply signed_bound. intros a Ha. unfold clamp. pose proof overflow_pos.
  pose proof (decimal_units_nonneg p a Hp Ha). lia.
Qed.

Lemma float_round_key (x : float) (ndigits : N) :
  is_nan_SF (Prim2SF x) = false ->
  is_nan_SF (Prim2SF (Py.float_round x ndigits)) = false /\
  key (Prim2SF (Py.float_round x ndigits)) =
    lift_key (rounded_units (10 ^ Z.of_N ndigits)) (Prim2SF x).
Proof.
  intros Nx. unfold lift_key. destruct (finite_SF (Prim2SF x)) eqn:F.
  - rewrite float_round_finite by exact F.
    split; [apply SF_of_units_not_nan |].
    pose proof (pow10_pos ndigits) as HP.
    rewrite key_SF_of_units.
    + rewrite key_units by exact F.
      rewrite (units_sign (Prim2SF x) (Prim2SF_valid x) F) at 2.
      unfold rounded_units, signed.
      set (u := Z.abs (units_SF (Prim2SF x))).
      destruct (Z.eq_dec u 0) as [E0 | NZ].
      * rewrite E0.
        assert (Ed : decimal_units (10 ^ Z.of_N ndigits) 0 = 0).
        { unfold decimal_units. cbn [Z.mul].
          replace (rne_div 0 (2 ^ unit_exp)) with 0
            by (symmetry; apply (rne_div_exact 0), unit_pos).
          cbn [Z.mul]. now apply round_units_0. }
        assert (Ec : clamp (decimal_units (10 ^ Z.of_N ndigits) 0) = 0)
          by (rewrite Ed; reflexivity).
        destruct (sign_SF (Prim2SF x)); cbn [cond_Zopp]; change (- 0) with 0;
          change (Z.abs 0) with 0; change (0 <? 0) with false;
          cbn [cond_Zopp]; rewrite Ec; reflexivity.
      * assert (Hu : 0 < u) by (unfold u in *; lia).
        destruct (sign_SF (Prim2SF x)); cbn [cond_Zopp].
        -- replace (- u <? 0) with true by (symmetry; apply Z.ltb_lt; lia).
           rewrite Z.abs_opp, (Z.abs_eq u) by lia. reflexivity.
        -- replace (u <? 0) with false by (symmetry; apply Z.ltb_ge; lia).
           rewrite (Z.abs_eq u) by lia. reflexivity.
    + apply decimal_units_representable; [exact HP | lia].
    + apply decimal_units_nonneg; [exact HP | lia].
  - rewrite float_round_other by exact F. split; [exact Nx | reflexivity].
Qed.

End PyOrder.

(** ** The scorer, step by step *)

Section Scorer.

Variable int_literal : string -> option Z.
Variable float_literal : string -> option float.

Local Abbreviation compute := (compute_liquidity_signal int_literal float_literal).
Local Abbreviation avg_volume_of m :=
  (Py.int int_literal (Py.dict_get m "avg_volume" (VInt 1000000))).
Local Abbreviation turnover_ratio_of m :=
  (Py.float float_literal (Py.dict_get m "turnover_ratio" (VFloat 0.8))).

Lemma compute_result (m : dict) :
  result (compute m) =
    match avg_volume_of m with
    | Raised e => Raised e
    | Returned a =>
        match turnover_ratio_of m with
        | Raised e => Raised e
        | Returned t =>
            match raw_score a t with
            | Raised e => Raised e
            | Returned s => Returned (enriched m s)
            end
        end
    end.
Proof.
  unfold compute_liquidity_signal, result, bind, lift, log, ret.
  destruct (avg_volume_of m); [| reflexivity].
  destruct (turnover_ratio_of m); [| reflexivity]. cbn.
  destruct (raw_score a a0); reflexivity.
Qed.

Lemma compute_returns (m r : dict) :
  result (compute m) = Returned r ->
  exists a t s,
    avg_volume_of m = Returned a /\ turnover_ratio_of m = Returned t /\
    raw_score a t = Returned s /\ r = enriched m s.
Proof.
  rewrite compute_result.
  destruct (avg_volume_of m) as [a |]; [| discriminate].
  destruct (turnover_ratio_of m) as [t |]; [| discriminate].
  destruct (raw_score a t) as [s |] eqn:E; [| discriminate].
  intros [= <-]. now exists a, t, s.
Qed.

Lemma enriched_score (m : dict) (s : float) :
  enriched m s !! "liquidity_score" = Some (VFloat (Py.float_round s 4)).
Proof. unfold enriched, Py.dict_unpack2. apply lookup_union_Some_l. reflexivity. Qed.

Lemma enriched_signal (m : dict) (s : float) :
  enriched m s !! "liquidity_signal" =
    Some (VStr (if Py.float_ge_int s 2 then "LIQUID" else "ILLIQUID")).
Proof. unfold enriched, Py.dict_unpack2. apply lookup_union_Some_l. reflexivity. Qed.

Lemma enriched_other (m : dict) (s : float) (k : string) :
  k <> "liquidity_score" -> k <> "liquidity_signal" ->
  enriched m s !! k = m !! k.
Proof.
  intros H1 H2. unfold enriched, Py.dict_unpack2. apply lookup_union_r.
  rewrite lookup_insert_ne by congruence. now rewrite lookup_singleton_ne.
Qed.

Lemma enriched_dom (m : dict) (s : float) :
  dom (enriched m s) = dom m ∪ {[ "liquidity_score"; "liquidity_signal" ]}.
Proof.
  unfold enriched, Py.dict_unpack2.
  rewrite dom_union_L, dom_insert_L, dom_singleton_L. apply (comm_L _).
Qed.

Lemma raw_score_returns (a : Z) (t s : float) :
  raw_score a t = Returned s ->
  exists q, Py.int_true_divide a 1000000 = Returned q /\ s = (q + t)%float.
Proof.
  unfold raw_score, Py.float_add.
  destruct (Py.int_true_divide a 1000000) as [q |]; [| discriminate].
  intros [= <-]. now exists q.
Qed.

Lemma int_raises (v : pyval) (e : exn) :
  Py.int int_literal v = Raised e ->
  exists c, e = Builtin c /\ (c = TypeError \/ c = ValueError \/ c = OverflowError).
Proof.
  destruct v as [| b | n | x | s | l | d]; cbn [Py.int]; try discriminate;
    try (intros [= <-]; eauto).
  - unfold Py.int_of_float. destruct (Prim2SF x); try discriminate;
      intros [= <-]; eauto.
  - destruct (int_literal s); [discriminate | intros [= <-]; eauto].
Qed.

Lemma float_raises (v : pyval) (e : exn) :
  Py.float float_literal v = Raised e ->
  exists c, e = Builtin c /\ (c = TypeError \/ c = ValueError \/ c = OverflowError).
Proof.
  destruct v as [| b | n | x | s | l | d]; cbn [Py.float]; try discriminate;
    try (intros [= <-]; eauto).
  - unfold Py.float_of_int.
    destruct (_ <=? _); [intros [= <-]; eauto | discriminate].
  - destruct (float_literal s); [discriminate | intros [= <-]; eauto].
Qed.

Lemma dict_get_present (m : dict) (k : string) (v d : pyval) :
  m !! k = Some v -> Py.dict_get m k d = v.
Proof. unfold Py.dict_get. now intros ->. Qed.

Lemma dict_get_insert (m : dict) (k : string) (v d : pyval) :
  Py.dict_get (<[k := v]> m) k d = v.
Proof. unfold Py.dict_get. now rewrite lookup_insert_eq. Qed.

Lemma dict_get_insert_ne (m : dict) (k k' : string) (v d : pyval) :
  k <> k' -> Py.dict_get (<[k := v]> m) k' d = Py.dict_get m k' d.
Proof. intros H. unfold Py.dict_get. now rewrite lookup_insert_ne. Qed.

End Scorer.

(** ** Order of the stored scores *)

Module ScoreOrder.
Import F64 F64Facts F64Round F64Repr F64Order F64Ops PyFacts PyOrder.

Lemma add_SF_nan_r (x : spec_float) : add_SF x S754_nan = S754_nan.
Proof. destruct x; reflexivity. Qed.

Lemma stored_nan (q t : float) (ndigits : N) :
  is_nan_SF (Prim2SF t) = true ->
  is_nan_SF (Prim2SF (Py.float_round (q + t) ndigits)) = true.
Proof.
  intros Nt.
  assert (E : Prim2SF (q + t) = S754_nan).
  { rewrite add_units. destruct (Prim2SF t); try discriminate Nt.
    apply add_SF_nan_r. }
  rewrite float_round_other by (rewrite E; reflexivity).
  rewrite E. reflexivity.
Qed.

(** The stored score grows with the volume and with the turnover. *)
Lemma stored_key_mono (a1 a2 : Z) (q1 q2 t1 t2 : float) (ndigits : N) :
  Py.int_true_divide a1 1000000 = Returned q1 ->
  Py.int_true_divide a2 1000000 = Returned q2 ->
  a1 <= a2 ->
  is_nan_SF (Prim2SF t1) = false -> is_nan_SF (Prim2SF t2) = false ->
  key (Prim2SF t1) <= key (Prim2SF t2) ->
  let y1 := Py.float_round (q1 + t1) ndigits in
  let y2 := Py.float_round (q2 + t2) ndigits in
  is_nan_SF (Prim2SF y1) = false /\ is_nan_SF (Prim2SF y2) = false /\
  key (Prim2SF y1) <= key (Prim2SF y2).
Proof.
  intros D1 D2 Ha N1 N2 Ht y1 y2.
  destruct (int_true_divide_key a1 1000000 q1 ltac:(lia) D1) as [F1 K1].
  destruct (int_true_divide_key a2 1000000 q2 ltac:(lia) D2) as [F2 K2].
  assert (Hq : key (Prim2SF q1) <= key (Prim2SF q2)).
  { rewrite K1, K2. apply signed_mono; [| | exact Ha].
    - intros a b H0 Hab. apply quotient_units_mono; lia.
    - intros a H0. apply quotient_units_nonneg; lia. }
  destruct (add_key q1 t1 F1 N1) as [Ns1 Ks1].
  destruct (add_key q2 t2 F2 N2) as [Ns2 Ks2].
  assert (Hs : key (Prim2SF (q1 + t1)) <= key (Prim2SF (q2 + t2))).
  { rewrite Ks1, Ks2.
    apply Z.le_trans with
      (lift_key (fun k => sum_units (key (Prim2SF q2) + k)) (Prim2SF t1)).
    - unfold lift_key. destruct (finite_SF (Prim2SF t1)); [| lia].
      apply sum_units_mono. lia.
    - apply lift_key_mono; try apply Prim2SF_valid; try assumption.
      + intros a b Hab. apply sum_units_mono. lia.
      + intros a. apply sum_units_bound. }
  destruct (float_round_key (q1 + t1) ndigits Ns1) as [Ny1 Ky1].
  destruct (float_round_key (q2 + t2) ndigits Ns2) as [Ny2 Ky2].
  split; [exact Ny1 | split; [exact Ny2 |]].
  unfold y1, y2. rewrite Ky1, Ky2.
  pose proof (pow10_pos ndigits) as HP.
  apply lift_key_mono; try apply Prim2SF_valid; try assumption.
  - intros a b Hab. now apply rounded_units_mono.
  - intros a. now apply rounded_units_bound.
Qed.

End ScoreOrder.

(** ** The claims *)

Section Claims.

Variable validate_message_schema : dict -> bool.
Variable int_literal : string -> option Z.
Variable float_literal : string -> option float.

Local Abbreviation validate := (validate_input_message validate_message_schema).
Local Abbreviation compute := (compute_liquidity_signal int_literal float_literal).
Local Abbreviation avg_volume_of m :=
  (Py.int int_literal (Py.dict_get m "avg_volume" (VInt 1000000))).
Local Abbreviation turnover_ratio_of m :=
  (Py.float float_literal (Py.dict_get m "turnover_ratio" (VFloat 0.8))).

(** C1, amended: when the integer [avg_volume] is within 53 bits,
    [compute_liquidity_signal] computes the score as
    [(avg_volume / 1_000_000.0) + turnover_ratio], with [avg_volume]
    the message's value coerced by [int] (1,000,000 when absent) and
    [turnover_ratio] coerced by [float] (0.8 when absent), and returns
    the message enriched from that score. *)
Theorem C1_score_formula (m : dict) (a : Z) (t : float) :
  avg_volume_of m = Returned a ->
  turnover_ratio_of m = Returned t ->
  Z.abs a <= 2 ^ 53 ->
  exists s,
    Spec.score_as_written a t = Returned s /\
    raw_score a t = Returned s /\
    result (compute m) = Returned (enriched m s).
Proof.
  intros Ha Ht Hb.
  destruct (PyFacts.true_divide_as_float_division a Hb) as (x & q & Ex & Eq & E).
  exists (q + t)%float. unfold Spec.score_as_written, raw_score, Py.float_add.
  rewrite Ex, Eq, E. split; [reflexivity | split; [reflexivity |]].
  rewrite compute_result, Ha, Ht. unfold raw_score, Py.float_add. now rewrite Eq.
Qed.

(** C2: the signal of the result is ["LIQUID"] exactly when the
    unrounded score is at least 2.0, and ["ILLIQUID"] otherwise; the
    comparison is on the score before [round]. *)
Theorem C2_signal_threshold (m r : dict) :
  result (compute m) = Returned r ->
  exists a t s,
    avg_volume_of m = Returned a /\ turnover_ratio_of m = Returned t /\
    raw_score a t = Returned s /\
    r !! "liquidity_signal" =
      Some (VStr (if (2 <=? s)%float then "LIQUID" else "ILLIQUID")).
Proof.
  intros H. destruct (compute_returns _ _ _ _ H) as (a & t & s & Ha & Ht & Hs & ->).
  exists a, t, s. repeat split; try assumption.
  rewrite enriched_signal, F64Order.float_ge_int_2. reflexivity.
Qed.

(** C3: the mapping returned has every key of the message plus
    [liquidity_score] and [liquidity_signal]; these two hold the
    computed values, whatever the message held under them, and every
    other key keeps its value. *)
Theorem C3_merge (m r : dict) :
  result (compute m) = Returned r ->
  (exists a t s,
     avg_volume_of m = Returned a /\ turnover_ratio_of m = Returned t /\
     raw_score a t = Returned s /\
     r !! "liquidity_score" = Some (VFloat (Py.float_round s 4)) /\
     r !! "liquidity_signal" =
       Some (VStr (if Py.float_ge_int s 2 then "LIQUID" else "ILLIQUID"))) /\
  (forall k, k <> "liquidity_score" -> k <> "liquidity_signal" ->
             r !! k = m !! k) /\
  dom r = dom m ∪ {[ "liquidity_score"; "liquidity_signal" ]}.
Proof.
  intros H. destruct (compute_returns _ _ _ _ H) as (a & t & s & Ha & Ht & Hs & ->).
  split; [| split].
  - exists a, t, s. repeat split; try assumption.
    + apply enriched_score.
    + apply enriched_signal.
  - intros k. apply enriched_other.
  - apply enriched_dom.
Qed.

(** C4: on a message the schema predicate accepts,
    [validate_input_message] returns that message, unchanged. *)
Theorem C4_valid_identity (m : dict) :
  validate_message_schema m = true ->
  result (validate m) = Returned m.
Proof.
  intros H. unfold validate_input_message, result, bind, log, ret.
  rewrite H. reflexivity.
Qed.

(** C5: on a message the schema predicate rejects,
    [validate_input_message] returns nothing and raises the
    invalid-format error, [ValueError("Invalid message format")]. *)
Theorem C5_invalid_raises (m : dict) :
  validate_message_schema m = false ->
  result (validate m) = Raised (Raise ValueError [VStr "Invalid message format"]).
Proof.
  intros H. unfold validate_input_message, result, bind, log, raise.
  rewrite H. reflexivity.
Qed.

(** C6: when [avg_volume] or [turnover_ratio] is present and [int],
    respectively [float], cannot coerce it, [compute_liquidity_signal]
    raises the coercion's own error (a [TypeError], [ValueError] or
    [OverflowError] of the interpreter) to its caller. *)
Theorem C6_coercion_error_propagates (m : dict) :
  (exists v e, m !! "avg_volume" = Some v /\ Py.int int_literal v = Raised e) \/
  (exists v e, m !! "turnover_ratio" = Some v /\ Py.float float_literal v = Raised e) ->
  exists c,
    result (compute m) = Raised (Builtin c) /\
    (c = TypeError \/ c = ValueError \/ c = OverflowError) /\
    ((exists v, m !! "avg_volume" = Some v /\
                Py.int int_literal v = Raised (Builtin c)) \/
     (exists v, m !! "turnover_ratio" = Some v /\
                Py.float float_literal v = Raised (Builtin c))).
Proof.
  intros H. rewrite compute_result.
  destruct (avg_volume_of m) as [a | e] eqn:Ea.
  - destruct H as [(v & e & Hv & He) | (v & e & Hv & He)].
    + rewrite (dict_get_present _ _ _ _ Hv), He in Ea. discriminate.
    + rewrite (dict_get_present _ _ _ _ Hv), He.
      destruct (float_raises _ _ _ He) as (c & -> & Hc).
      exists c. split; [reflexivity | split; [exact Hc | right; eauto]].
  - destruct (int_raises _ _ _ Ea) as (c & -> & Hc).
    exists c. split; [reflexivity | split; [exact Hc | left]].
    destruct H as [(v & e & Hv & He) | (v & e & Hv & He)].
    + rewrite (dict_get_present _ _ _ _ Hv) in Ea. eauto.
    + unfold Py.dict_get in Ea.
      destruct (m !! "avg_volume") as [v' |] eqn:El; [eauto | discriminate].
Qed.

(** C7: the stored [liquidity_score] is the unrounded score rounded to 4
    decimal places, ties to even. *)
Theorem C7_score_rounded (m r : dict) :
  result (compute m) = Returned r ->
  exists a t s y,
    avg_volume_of m = Returned a /\ turnover_ratio_of m = Returned t /\
    raw_score a t = Returned s /\
    r !! "liquidity_score" = Some (VFloat y) /\
    Spec.rounded_half_even 4 s y.
Proof.
  intros H. destruct (compute_returns _ _ _ _ H) as (a & t & s & Ha & Ht & Hs & ->).
  exists a, t, s, (Py.float_round s 4). repeat split; try assumption.
  - apply enriched_score.
  - apply PyOrder.float_round_half_even.
Qed.

(** C8: for two messages whose coerced [avg_volume] are ordered and
    whose coerced [turnover_ratio] are equal or ordered, the
    [liquidity_score] of the second is never smaller than that of the
    first. *)
Theorem C8_monotone (m1 m2 r1 r2 : dict) (a1 a2 : Z) (t1 t2 y1 y2 : float) :
  avg_volume_of m1 = Returned a1 -> avg_volume_of m2 = Returned a2 ->
  turnover_ratio_of m1 = Returned t1 -> turnover_ratio_of m2 = Returned t2 ->
  result (compute m1) = Returned r1 -> result (compute m2) = Returned r2 ->
  r1 !! "liquidity_score" = Some (VFloat y1) ->
  r2 !! "liquidity_score" = Some (VFloat y2) ->
  a1 <= a2 ->
  t1 = t2 \/ (t1 <=? t2)%float = true ->
  (y2 <? y1)%float = false /\
  ((t1 <=? t2)%float = true -> (y1 <=? y2)%float = true).
Proof.
  intros A1 A2 T1 T2 R1 R2 L1 L2 Ha Ht.
  destruct (compute_returns _ _ _ _ R1) as (a1' & t1' & s1 & A1' & T1' & S1 & ->).
  destruct (compute_returns _ _ _ _ R2) as (a2' & t2' & s2 & A2' & T2' & S2 & ->).
  rewrite A1 in A1'. rewrite A2 in A2'. rewrite T1 in T1'. rewrite T2 in T2'.
  injection A1' as <-. injection A2' as <-. injection T1' as <-. injection T2' as <-.
  rewrite enriched_score in L1, L2. injection L1 as <-. injection L2 as <-.
  destruct (raw_score_returns _ _ _ S1) as (q1 & D1 & ->).
  destruct (raw_score_returns _ _ _ S2) as (q2 & D2 & ->).
  assert (Hord : F64.is_nan_SF (Prim2SF t1) = false ->
                 F64.is_nan_SF (Prim2SF t2) = false ->
                 F64.key (Prim2SF t1) <= F64.key (Prim2SF t2) ->
                 (Py.float_round (q2 + t2) 4 <? Py.float_round (q1 + t1) 4)%float = false /\
                 (Py.float_round (q1 + t1) 4 <=? Py.float_round (q2 + t2) 4)%float = true).
  { intros N1 N2 Hk.
    destruct (ScoreOrder.stored_key_mono a1 a2 q1 q2 t1 t2 4 D1 D2 Ha N1 N2 Hk)
      as (Ny1 & Ny2 & Hy).
    rewrite F64Order.ltb_key, F64Order.leb_key by assumption.
    split; [apply Z.ltb_ge | apply Z.leb_le]; exact Hy. }
  destruct (F64.is_nan_SF (Prim2SF t1)) eqn:N1.
  - (* a NaN turnover: both scores are NaN *)
    assert (Nle : (t1 <=? t2)%float = false).
    { destruct ((t1 <=? t2)%float) eqn:E; [| reflexivity].
      apply F64Order.leb_true_not_nan in E. destruct E as [E _]. congruence. }
    split; [| congruence].
    apply F64Order.ltb_nan_r. now apply ScoreOrder.stored_nan.
  - destruct Ht as [<- | Hle].
    + destruct (Hord eq_refl N1 ltac:(lia)) as [H1 H2]. split; [exact H1 | now intros _].
    + destruct (F64Order.leb_true_not_nan _ _ Hle) as [_ N2].
      assert (Hk : F64.key (Prim2SF t1) <= F64.key (Prim2SF t2)).
      { rewrite F64Order.leb_key in Hle by assumption. now apply Z.leb_le. }
      destruct (Hord eq_refl N2 Hk) as [H1 H2]. split; [exact H1 | now intros _].
Qed.

(** C9, amended: when the schema predicate rejects the message, the
    error raised carries only the text ["Invalid message format"]; the
    offending message is written to the error log and is not attached
    to the error. *)
Theorem C9_message_only_logged (m : dict) :
  validate_message_schema m = false ->
  exists e,
    result (validate m) = Raised e /\
    args_of e = [VStr "Invalid message format"] /\
    ~ Spec.carries e m /\
    LogRecord ERROR "❌ Invalid message schema: %s" [VDict m] ∈ logged (validate m).
Proof.
  intros H. exists (Raise ValueError [VStr "Invalid message format"]).
  unfold validate_input_message, result, logged, bind, log, raise.
  rewrite H. cbn. split; [reflexivity | split; [reflexivity | split]].
  - unfold Spec.carries. cbn. intros Hin.
    apply list_elem_of_singleton in Hin. discriminate Hin.
  - apply list_elem_of_further, list_elem_of_here.
Qed.

(** C10: an [avg_volume] given as a float is truncated toward zero
    before the score is computed, so any other [avg_volume] with the
    same integer value gives the same [liquidity_score] and
    [liquidity_signal]. *)
Theorem C10_fraction_truncated (m r : dict) (x : float) :
  m !! "avg_volume" = Some (VFloat x) ->
  result (compute m) = Returned r ->
  exists n,
    Py.int int_literal (VFloat x) = Returned n /\
    (Z.abs n * 2 ^ F64.unit_exp <= Z.abs (F64.units x)
       < (Z.abs n + 1) * 2 ^ F64.unit_exp /\
     (0 <= F64.units x -> 0 <= n) /\ (F64.units x <= 0 -> n <= 0)) /\
    forall v', Py.int int_literal v' = Returned n ->
      exists r',
        result (compute (<["avg_volume" := v']> m)) = Returned r' /\
        r' !! "liquidity_score" = r !! "liquidity_score" /\
        r' !! "liquidity_signal" = r !! "liquidity_signal".
Proof.
  intros Hx H.
  destruct (compute_returns _ _ _ _ H) as (n & t & s & Ha & Ht & Hs & ->).
  rewrite (dict_get_present _ _ _ _ Hx) in Ha.
  exists n. split; [exact Ha | split].
  - cbn [Py.int] in Ha. apply PyOrder.int_of_float_truncates in Ha.
    destruct Ha as (_ & B). exact B.
  - intros v' Hv'. exists (enriched (<["avg_volume" := v']> m) s).
    split; [| now rewrite !enriched_score, !enriched_signal].
    rewrite compute_result, dict_get_insert, Hv'.
    rewrite dict_get_insert_ne by discriminate. rewrite Ht, Hs. reflexivity.
Qed.

End Claims.

(** ** The claims on the sample messages *)

Local Abbreviation sample_compute :=
  (compute_liquidity_signal Literal.int_literal Literal.float_literal).
Local Abbreviation sample_validate :=
  (validate_input_message Sample.requires_symbol).
Local Abbreviation sample_avg_volume m :=
  (Py.int Literal.int_literal (Py.dict_get m "avg_volume" (VInt 1000000))).
Local Abbreviation sample_turnover_ratio m :=
  (Py.float Literal.float_literal (Py.dict_get m "turnover_ratio" (VFloat 0.8))).

(** The premises of a claim, checked once by evaluation and then handed
    to the claim. *)
Ltac premises tac :=
  match goal with
  | |- ?A /\ _ =>
      let H := fresh "H" in
      assert (H : A) by tac; split; [exact H |]
  end.

Lemma C1_score_formula_witness :
  (sample_avg_volume Sample.boundary = Returned 1200000 /\
   sample_turnover_ratio Sample.boundary = Returned 0.8%float /\
   Z.abs 1200000 <= 2 ^ 53) /\
  exists s,
    Spec.score_as_written 1200000 0.8 = Returned s /\
    raw_score 1200000 0.8 = Returned s /\
    result (sample_compute Sample.boundary) = Returned (enriched Sample.boundary s).
Proof.
  premises ltac:(split; [exact eq_refl | split; [exact eq_refl | lia]]).
  destruct H as (Ha & Ht & Hb).
  exact (C1_score_formula Literal.int_literal Literal.float_literal
           Sample.boundary 1200000 0.8 Ha Ht Hb).
Defined.

(** C1 as stated fails beyond 53 bits: for [avg_volume = 10^18 + 63] the
    quotient of the integers is not the quotient of the floats, and the
    stored score differs too. *)
Lemma C1_score_not_as_written :
  sample_avg_volume Sample.huge = Returned 1000000000000000063 /\
  sample_turnover_ratio Sample.huge = Returned 0.8%float /\
  raw_score 1000000000000000063 0.8 = Returned 0x1.d1a94a200199bp+39%float /\
  Spec.score_as_written 1000000000000000063 0.8 = Returned 0x1.d1a94a200199ap+39%float /\
  raw_score 1000000000000000063 0.8 <> Spec.score_as_written 1000000000000000063 0.8 /\
  Sample.scored (sample_compute Sample.huge)
    = Some (VFloat 1000000000000.8002, VStr "LIQUID") /\
  Py.float_round 0x1.d1a94a200199ap+39 4 = 1000000000000.8%float.
Proof.
  assert (Hc : raw_score 1000000000000000063 0.8 = Returned 0x1.d1a94a200199bp+39%float)
    by exact eq_refl.
  assert (Hw : Spec.score_as_written 1000000000000000063 0.8
               = Returned 0x1.d1a94a200199ap+39%float) by exact eq_refl.
  split; [exact eq_refl | split; [exact eq_refl |]].
  split; [exact Hc | split; [exact Hw |]].
  split; [| split; exact eq_refl].
  rewrite Hc, Hw. intros H.
  apply (f_equal (fun o => match o with
                           | Returned x => Prim2SF x
                           | Raised _ => S754_nan
                           end)) in H.
  discriminate H.
Qed.

Lemma C2_signal_threshold_witness :
  result (sample_compute Sample.below_boundary)
    = Returned (enriched Sample.below_boundary (1.199999 + 0.8)) /\
  exists a t s,
    sample_avg_volume Sample.below_boundary = Returned a /\
    sample_turnover_ratio Sample.below_boundary = Returned t /\
    raw_score a t = Returned s /\
    enriched Sample.below_boundary (1.199999 + 0.8) !! "liquidity_signal" =
      Some (VStr (if (2 <=? s)%float then "LIQUID" else "ILLIQUID")).
Proof.
  premises ltac:(exact eq_refl).
  exact (C2_signal_threshold Literal.int_literal Literal.float_literal _ _ H).
Defined.

Lemma C3_merge_witness :
  result (sample_compute Sample.stale) = Returned (enriched Sample.stale (1 + 0.8)) /\
  ((exists a t s,
      sample_avg_volume Sample.stale = Returned a /\
      sample_turnover_ratio Sample.stale = Returned t /\
      raw_score a t = Returned s /\
      enriched Sample.stale (1 + 0.8) !! "liquidity_score"
        = Some (VFloat (Py.float_round s 4)) /\
      enriched Sample.stale (1 + 0.8) !! "liquidity_signal"
        = Some (VStr (if Py.float_ge_int s 2 then "LIQUID" else "ILLIQUID"))) /\
   (forall k, k <> "liquidity_score" -> k <> "liquidity_signal" ->
              enriched Sample.stale (1 + 0.8) !! k = Sample.stale !! k) /\
   dom (enriched Sample.stale (1 + 0.8))
     = dom Sample.stale ∪ {[ "liquidity_score"; "liquidity_signal" ]}).
Proof.
  premises ltac:(exact eq_refl).
  exact (C3_merge Literal.int_literal Literal.float_literal _ _ H).
Defined.

Lemma C4_valid_identity_witness :
  Sample.requires_symbol Sample.defaults = true /\
  result (sample_validate Sample.defaults) = Returned Sample.defaults.
Proof.
  premises ltac:(exact eq_refl).
  exact (C4_valid_identity Sample.requires_symbol _ H).
Defined.

Lemma C5_invalid_raises_witness :
  Sample.requires_symbol Sample.no_symbol = false /\
  result (sample_validate Sample.no_symbol)
    = Raised (Raise ValueError [VStr "Invalid message format"]).
Proof.
  premises ltac:(exact eq_refl).
  exact (C5_invalid_raises Sample.requires_symbol _ H).
Defined.

Lemma C6_coercion_error_propagates_witness :
  ((exists v e, Sample.not_a_number !! "avg_volume" = Some v /\
                Py.int Literal.int_literal v = Raised e) \/
   (exists v e, Sample.not_a_number !! "turnover_ratio" = Some v /\
                Py.float Literal.float_literal v = Raised e)) /\
  exists c,
    result (sample_compute Sample.not_a_number) = Raised (Builtin c) /\
    (c = TypeError \/ c = ValueError \/ c = OverflowError) /\
    ((exists v, Sample.not_a_number !! "avg_volume" = Some v /\
                Py.int Literal.int_literal v = Raised (Builtin c)) \/
     (exists v, Sample.not_a_number !! "turnover_ratio" = Some v /\
                Py.float Literal.float_literal v = Raised (Builtin c))).
Proof.
  premises ltac:(left; exists (VStr "not_a_number"), (Builtin ValueError);
                 split; exact eq_refl).
  exact (C6_coercion_error_propagates Literal.int_literal Literal.float_literal _ H).
Defined.

Lemma C7_score_rounded_witness :
  result (sample_compute Sample.rounding)
    = Returned (enriched Sample.rounding (1.5 + 0.33333)) /\
  exists a t s y,
    sample_avg_volume Sample.rounding = Returned a /\
    sample_turnover_ratio Sample.rounding = Returned t /\
    raw_score a t = Returned s /\
    enriched Sample.rounding (1.5 + 0.33333) !! "liquidity_score" = Some (VFloat y) /\
    Spec.rounded_half_even 4 s y.
Proof.
  premises ltac:(exact eq_refl).
  exact (C7_score_rounded Literal.int_literal Literal.float_literal _ _ H).
Defined.

Lemma C8_monotone_witness :
  (sample_avg_volume Sample.defaults = Returned 1000000 /\
   sample_avg_volume Sample.boundary = Returned 1200000 /\
   sample_turnover_ratio Sample.defaults = Returned 0.8%float /\
   sample_turnover_ratio Sample.boundary = Returned 0.8%float /\
   result (sample_compute Sample.defaults) = Returned (enriched Sample.defaults (1 + 0.8)) /\
   result (sample_compute Sample.boundary) = Returned (enriched Sample.boundary (1.2 + 0.8)) /\
   enriched Sample.defaults (1 + 0.8) !! "liquidity_score" = Some (VFloat 1.8) /\
   enriched Sample.boundary (1.2 + 0.8) !! "liquidity_score" = Some (VFloat 2) /\
   1000000 <= 1200000 /\
   (0.8%float = 0.8%float \/ (0.8 <=? 0.8)%float = true)) /\
  (2 <? 1.8)%float = false /\
  ((0.8 <=? 0.8)%float = true -> (1.8 <=? 2)%float = true).
Proof.
  premises ltac:(do 8 (split; [exact eq_refl |]); split; [lia | left; exact eq_refl]).
  destruct H as (A1 & A2 & T1 & T2 & R1 & R2 & L1 & L2 & Ha & Ht).
  exact (C8_monotone Literal.int_literal Literal.float_literal _ _ _ _ _ _ _ _ _ _
           A1 A2 T1 T2 R1 R2 L1 L2 Ha Ht).
Defined.

(** C9 as stated fails: the error raised for a rejected message does not
    carry the message. *)
Lemma C9_error_omits_message :
  Sample.requires_symbol Sample.no_symbol = false /\
  exists e,
    result (sample_validate Sample.no_symbol) = Raised e /\
    ~ Spec.carries e Sample.no_symbol.
Proof.
  split; [exact eq_refl |].
  exists (Raise ValueError [VStr "Invalid message format"]). split; [exact eq_refl |].
  unfold Spec.carries. cbn [args_of]. intros H.
  apply list_elem_of_singleton in H. discriminate H.
Qed.

Lemma C9_message_only_logged_witness :
  Sample.requires_symbol Sample.no_symbol = false /\
  exists e,
    result (sample_validate Sample.no_symbol) = Raised e /\
    args_of e = [VStr "Invalid message format"] /\
    ~ Spec.carries e Sample.no_symbol /\
    LogRecord ERROR "❌ Invalid message schema: %s" [VDict Sample.no_symbol]
      ∈ logged (sample_validate Sample.no_symbol).
Proof.
  premises ltac:(exact eq_refl).
  exact (C9_message_only_logged Sample.requires_symbol _ H).
Defined.

Lemma C10_fraction_truncated_witness :
  (Sample.fractional !! "avg_volume" = Some (VFloat 1999999.9) /\
   result (sample_compute Sample.fractional)
     = Returned (enriched Sample.fractional (1.999999 + 0.8))) /\
  exists n,
    Py.int Literal.int_literal (VFloat 1999999.9) = Returned n /\
    (Z.abs n * 2 ^ F64.unit_exp <= Z.abs (F64.units 1999999.9)
       < (Z.abs n + 1) * 2 ^ F64.unit_exp /\
     (0 <= F64.units 1999999.9 -> 0 <= n) /\ (F64.units 1999999.9 <= 0 -> n <= 0)) /\
    forall v', Py.int Literal.int_literal v' = Returned n ->
      exists r',
        result (sample_compute (<["avg_volume" := v']> Sample.fractional)) = Returned r' /\
        r' !! "liquidity_score"
          = enriched Sample.fractional (1.999999 + 0.8) !! "liquidity_score" /\
        r' !! "liquidity_signal"
          = enriched Sample.fractional (1.999999 + 0.8) !! "liquidity_signal".
Proof.
  premises ltac:(split; exact eq_refl).
  destruct H as (Hx & Hr).
  exact (C10_fraction_truncated Literal.int_literal Literal.float_literal _ _ _ Hx Hr).
Defined.

(** *** The examples of the specification *)

Example boundary_is_liquid :
  Sample.scored (sample_compute Sample.boundary) = Some (VFloat 2, VStr "LIQUID").
Proof. exact eq_refl. Qed.

Example below_boundary_is_illiquid :
  Sample.scored (sample_compute Sample.below_boundary) = Some (VFloat 2, VStr "ILLIQUID").
Proof. exact eq_refl. Qed.

Example defaults_are_illiquid :
  Sample.scored (sample_compute Sample.defaults) = Some (VFloat 1.8, VStr "ILLIQUID").
Proof. exact eq_refl. Qed.

Example rounding_to_four_places :
  Sample.scored (sample_compute Sample.rounding) = Some (VFloat 1.8333, VStr "ILLIQUID").
Proof. exact eq_refl. Qed.

Example not_a_number_raises :
  result (sample_compute Sample.not_a_number) = Raised (Builtin ValueError).
Proof. exact eq_refl. Qed.

Example fraction_is_dropped :
  Py.int Literal.int_literal (VFloat 1999999.9) = Returned 1999999 /\
  Sample.scored (sample_compute Sample.fractional) = Some (VFloat 2.8, VStr "LIQUID").
Proof. split; exact eq_refl. Qed.

Example literals_agree :
  Literal.float_literal "0.8" = Some 0.8%float /\
  Literal.float_literal " 1_0.2_5E-1 " = Some 1.025%float /\
  Literal.float_literal "-Infinity" = Some neg_infinity /\
  Literal.float_literal "1._5" = None /\
  Literal.int_literal " -1_000 " = Some (-1000) /\
  Literal.int_literal "12.0" = None.
Proof. do 5 (split; [exact eq_refl |]). exact eq_refl. Qed.

(** ** The score against the threshold and the range of the floats *)

Module ScoreRange.
Import F64 F64Facts F64Round F64Repr F64Order F64Ops PyFacts PyOrder.

Lemma two_key : key (Prim2SF 2) = 2 * 2 ^ unit_exp.
Proof. exact eq_refl. Qed.

(** [score >= 2], read on the units of the score. *)
Lemma ge_int_key (x : float) :
  is_nan_SF (Prim2SF x) = false ->
  Py.float_ge_int x 2 = (2 * 2 ^ unit_exp <=? key (Prim2SF x)).
Proof.
  intros N. rewrite float_ge_int_2, leb_key by (exact N || reflexivity).
  now rewrite two_key.
Qed.

Lemma ge_int_nan (x : float) :
  is_nan_SF (Prim2SF x) = true -> Py.float_ge_int x 2 = false.
Proof.
  unfold Py.float_ge_int. destruct (Prim2SF x); try discriminate. reflexivity.
Qed.

(** The unrounded score grows with the volume and with the turnover. *)
Lemma raw_key_mono (a1 a2 : Z) (q1 q2 t1 t2 : float) :
  Py.int_true_divide a1 1000000 = Returned q1 ->
  Py.int_true_divide a2 1000000 = Returned q2 ->
  a1 <= a2 ->
  is_nan_SF (Prim2SF t1) = false -> is_nan_SF (Prim2SF t2) = false ->
  key (Prim2SF t1) <= key (Prim2SF t2) ->
  is_nan_SF (Prim2SF (q1 + t1)) = false /\
  is_nan_SF (Prim2SF (q2 + t2)) = false /\
  key (Prim2SF (q1 + t1)) <= key (Prim2SF (q2 + t2)).
Proof.
  intros D1 D2 Ha N1 N2 Ht.
  destruct (int_true_divide_key a1 1000000 q1 ltac:(lia) D1) as [F1 K1].
  destruct (int_true_divide_key a2 1000000 q2 ltac:(lia) D2) as [F2 K2].
  assert (Hq : key (Prim2SF q1) <= key (Prim2SF q2)).
  { rewrite K1, K2. apply signed_mono; [| | exact Ha].
    - intros a b H0 Hab. apply quotient_units_mono; lia.
    - intros a H0. apply quotient_units_nonneg; lia. }
  destruct (add_key q1 t1 F1 N1) as [Ns1 Ks1].
  destruct (add_key q2 t2 F2 N2) as [Ns2 Ks2].
  split; [exact Ns1 | split; [exact Ns2 |]].
  rewrite Ks1, Ks2.
  apply Z.le_trans with
    (lift_key (fun k => sum_units (key (Prim2SF q2) + k)) (Prim2SF t1)).
  - unfold lift_key. destruct (finite_SF (Prim2SF t1)); [| lia].
    apply sum_units_mono. lia.
  - apply lift_key_mono; try apply Prim2SF_valid; try assumption.
    + intros a b Hab. apply sum_units_mono. lia.
    + intros a. apply sum_units_bound.
Qed.



(** *** The two overflows

    [avg_volume / 1_000_000] raises when the quotient rounds to
    [2^1024]; the sum rounds to an infinity instead. *)

Lemma quotient_overflows :
  overflow_units <= quotient_units 1000000 (1000000 * (2 ^ 1024 - 2 ^ 970)).
Proof. apply Z.leb_le. exact eq_refl. Qed.

Lemma quotient_fits :
  quotient_units 1000000 (1000000 * (2 ^ 1024 - 2 ^ 970) - 1) < overflow_units.
Proof. apply Z.ltb_lt. exact eq_refl. Qed.

Lemma quotient_overflow_iff (a : Z) :
  0 <= a ->
  (overflow_units <=? quotient_units 1000000 a)
  = (1000000 * (2 ^ 1024 - 2 ^ 970) <=? a).
Proof.
  intros Ha.
  destruct (Z.leb_spec (1000000 * (2 ^ 1024 - 2 ^ 970)) a) as [H | H].
  - apply Z.leb_le. etransitivity; [exact quotient_overflows |].
    apply quotient_units_mono; [lia | | exact H].
    apply Z.mul_nonneg_nonneg; [lia |].
    assert (2 ^ 970 <= 2 ^ 1024) by (apply pow2_le; lia). lia.
  - apply Z.leb_gt. eapply Z.le_lt_trans; [| exact quotient_fits].
    apply quotient_units_mono; lia.
Qed.

Lemma sum_overflows :
  overflow_units <= sum_units ((2 ^ 1024 - 2 ^ 970) * 2 ^ unit_exp).
Proof. apply Z.leb_le. exact eq_refl. Qed.

(** Among the floats other than NaN only [+inf] reaches the overflow
    threshold. *)
Lemma key_overflow (x : spec_float) :
  valid_binary x = true -> is_nan_SF x = false ->
  overflow_units <= key x -> x = S754_infinity false.
Proof.
  intros V N H. pose proof overflow_pos as HO.
  destruct (finite_SF x) eqn:F.
  - pose proof (key_finite_bound x V F). lia.
  - destruct x as [| [|] | |]; try discriminate; [| reflexivity].
    cbn [key cond_Zopp] in H. lia.
Qed.

(** *** Sums at the default fields *)

(** The largest sum of 1.0 and a turnover below [1 - 2^-53] is below 2:
    it is the tie between [2 - 2^-52] and 2, less one unit. *)
Lemma sum_below_two :
  sum_units (key (Prim2SF 1) + (key (Prim2SF 0x1.fffffffffffffp-1) - 1))
  < 2 * 2 ^ unit_exp.
Proof. apply Z.ltb_lt. exact eq_refl. Qed.


End ScoreRange.

(** ** Further properties of the two operations *)

Section Coverage.

Variable validate_message_schema : dict -> bool.
Variable int_literal : string -> option Z.
Variable float_literal : string -> option float.

Local Abbreviation validate := (validate_input_message validate_message_schema).
Local Abbreviation compute := (compute_liquidity_signal int_literal float_literal).
Local Abbreviation avg_volume_of m :=
  (Py.int int_literal (Py.dict_get m "avg_volume" (VInt 1000000))).
Local Abbreviation turnover_ratio_of m :=
  (Py.float float_literal (Py.dict_get m "turnover_ratio" (VFloat 0.8))).
Local Abbreviation symbol_of m := (Py.dict_get m "symbol" (VStr "UNKNOWN")).

(** The two records of the scorer: line 51 and line 62. *)
Local Abbreviation computing m :=
  (LogRecord INFO "💧 Computing liquidity signal for %s" [symbol_of m]).
Local Abbreviation computed m s :=
  (LogRecord DEBUG "✅ Liquidity result for %s: %s"
     [symbol_of m;
      VDict {[ "liquidity_score" := VFloat (Py.float_round s 4);
               "liquidity_signal" :=
                 VStr (if Py.float_ge_int s 2 then "LIQUID" else "ILLIQUID") ]}]).

(** *** The scorer, outcome and records together *)

Lemma compute_steps (m : dict) :
  compute m =
    match avg_volume_of m with
    | Raised e => ([], Raised e)
    | Returned a =>
        match turnover_ratio_of m with
        | Raised e => ([], Raised e)
        | Returned t =>
            match raw_score a t with
            | Raised e => ([computing m], Raised e)
            | Returned s => ([computing m; computed m s], Returned (enriched m s))
            end
        end
    end.
Proof.
  unfold compute_liquidity_signal, bind, lift, log, ret.
  destruct (avg_volume_of m); [| reflexivity].
  destruct (turnover_ratio_of m); [| reflexivity]. cbn.
  destruct (raw_score _ _); reflexivity.
Qed.

Lemma raw_score_raises (a : Z) (t : float) (e : exn) :
  raw_score a t = Raised e -> e = Builtin OverflowError.
Proof.
  unfold raw_score, Py.int_true_divide. cbn [Z.eqb].
  destruct (_ <=? _); [| discriminate]. now intros [= <-].
Qed.

Lemma raw_score_in_range (a : Z) (t : float) :
  if 1000000 * (2 ^ 1024 - 2 ^ 970) <=? Z.abs a
  then raw_score a t = Raised (Builtin OverflowError)
  else exists s, raw_score a t = Returned s.
Proof.
  unfold raw_score, Py.int_true_divide. cbn [Z.eqb].
  change (Z.abs 1000000) with 1000000.
  fold (F64.quotient_units 1000000 (Z.abs a)).
  rewrite ScoreRange.quotient_overflow_iff by lia.
  destruct (_ <=? _); [reflexivity | eauto].
Qed.

Lemma dict_get_enriched (m : dict) (s : float) (k : string) (d : pyval) :
  k <> "liquidity_score" -> k <> "liquidity_signal" ->
  Py.dict_get (enriched m s) k d = Py.dict_get m k d.
Proof. intros H1 H2. unfold Py.dict_get. now rewrite enriched_other. Qed.

Lemma enriched_idemp (m : dict) (s : float) :
  enriched (enriched m s) s = enriched m s.
Proof.
  unfold enriched, Py.dict_unpack2.
  now rewrite (assoc_L (∪)), (idemp_L (∪)).
Qed.

Lemma enriched_inserts (m : dict) (s : float) :
  enriched m s =
    <["liquidity_score" := VFloat (Py.float_round s 4)]>
      (<["liquidity_signal" :=
           VStr (if Py.float_ge_int s 2 then "LIQUID" else "ILLIQUID")]> m).
Proof.
  unfold enriched, Py.dict_unpack2.
  now rewrite <- insert_union_l, <- insert_union_singleton_l.
Qed.

Lemma dict_get_absent (m : dict) (k : string) (d : pyval) :
  m !! k = None -> Py.dict_get m k d = d.
Proof. unfold Py.dict_get. now intros ->. Qed.

Lemma nan_sum (q t : float) :
  F64.is_nan_SF (Prim2SF t) = true -> F64.is_nan_SF (Prim2SF (q + t)) = true.
Proof.
  intros N. rewrite F64Ops.add_units.
  destruct (Prim2SF t); try discriminate N.
  now rewrite ScoreOrder.add_SF_nan_r.
Qed.

(** *** What is written to the log *)

(** X1: when [compute_liquidity_signal] returns, it has written exactly
    two records, in this order: an info record naming the symbol
    (["UNKNOWN"] when the message has none), and a debug record with
    the symbol and the two computed fields, which are the ones merged
    into the mapping returned. *)
Theorem scorer_log_on_success (m r : dict) :
  result (compute m) = Returned r ->
  exists a t s,
    avg_volume_of m = Returned a /\ turnover_ratio_of m = Returned t /\
    raw_score a t = Returned s /\
    r = enriched m s /\
    logged (compute m) =
      [ LogRecord INFO "💧 Computing liquidity signal for %s"
          [Py.dict_get m "symbol" (VStr "UNKNOWN")];
        LogRecord DEBUG "✅ Liquidity result for %s: %s"
          [Py.dict_get m "symbol" (VStr "UNKNOWN");
           VDict {[ "liquidity_score" := VFloat (Py.float_round s 4);
                    "liquidity_signal" :=
                      VStr (if Py.float_ge_int s 2 then "LIQUID" else "ILLIQUID") ]}] ].
Proof.
  rewrite compute_steps.
  destruct (avg_volume_of m) as [a |]; [| discriminate].
  destruct (turnover_ratio_of m) as [t |]; [| discriminate].
  destruct (raw_score a t) as [s |] eqn:Hs; [| discriminate].
  intros [= <-]. exists a, t, s. repeat split; first [exact Hs | reflexivity].
Qed.

(** X2: when [compute_liquidity_signal] raises, no result record has
    been written: a failed coercion leaves the log empty, and the
    overflow of [avg_volume / 1_000_000] comes after the info record
    only. *)
Theorem scorer_log_on_failure (m : dict) (e : exn) :
  result (compute m) = Raised e ->
  (logged (compute m) = [] /\
   (avg_volume_of m = Raised e \/
    exists a, avg_volume_of m = Returned a /\ turnover_ratio_of m = Raised e))
  \/
  (logged (compute m) =
     [ LogRecord INFO "💧 Computing liquidity signal for %s"
         [Py.dict_get m "symbol" (VStr "UNKNOWN")] ] /\
   e = Builtin OverflowError /\
   exists a t,
     avg_volume_of m = Returned a /\ turnover_ratio_of m = Returned t /\
     1000000 * (2 ^ 1024 - 2 ^ 970) <= Z.abs a).
Proof.
  rewrite compute_steps.
  destruct (avg_volume_of m) as [a | e1]; [| intros [= <-]; left; auto].
  destruct (turnover_ratio_of m) as [t | e2]; [| intros [= <-]; left; eauto].
  pose proof (raw_score_in_range a t) as R.
  destruct (Z.leb_spec (1000000 * (2 ^ 1024 - 2 ^ 970)) (Z.abs a)) as [Hb | Hb];
    [rewrite R | destruct R as [s ->]; discriminate].
  intros [= <-]. right. split; [reflexivity | split; [reflexivity |]].
  now exists a, t.
Qed.

(** The validator announces the check, and logs the message it
    rejects. *)
Lemma validate_logged (m : dict) :
  logged (validate m) =
    LogRecord DEBUG "🔍 Validating message schema..." [] ::
    (if validate_message_schema m then []
     else [LogRecord ERROR "❌ Invalid message schema: %s" [VDict m]]).
Proof.
  unfold validate_input_message, logged, bind, log, raise, ret.
  destruct (validate_message_schema m); reflexivity.
Qed.

(** *** When the scorer returns *)

(** X3: once both fields are coerced, [compute_liquidity_signal]
    returns exactly when [|avg_volume| < 10^6 * (2^1024 - 2^970)], the
    first magnitude whose quotient by 1,000,000 rounds to [2^1024]; from
    there on the division raises [OverflowError]. *)
Theorem scorer_returns_within_range (m : dict) (a : Z) (t : float) :
  avg_volume_of m = Returned a -> turnover_ratio_of m = Returned t ->
  (Z.abs a < 1000000 * (2 ^ 1024 - 2 ^ 970) ->
   exists s, raw_score a t = Returned s /\
             result (compute m) = Returned (enriched m s)) /\
  (1000000 * (2 ^ 1024 - 2 ^ 970) <= Z.abs a ->
   result (compute m) = Raised (Builtin OverflowError)).
Proof.
  intros Ha Ht. rewrite compute_result, Ha, Ht.
  pose proof (raw_score_in_range a t) as R.
  destruct (Z.leb_spec (1000000 * (2 ^ 1024 - 2 ^ 970)) (Z.abs a)) as [Hb | Hb].
  - rewrite R. split; [lia | reflexivity].
  - destruct R as [s ->]. split; [eauto | lia].
Qed.

(** X4: whatever the message, the only errors
    [compute_liquidity_signal] raises are the interpreter's
    [TypeError], [ValueError] and [OverflowError]; it raises none of
    its own and never divides by zero. *)
Theorem scorer_raises_only_builtin (m : dict) (e : exn) :
  result (compute m) = Raised e ->
  exists c,
    e = Builtin c /\ (c = TypeError \/ c = ValueError \/ c = OverflowError).
Proof.
  rewrite compute_result.
  destruct (avg_volume_of m) as [a | e1] eqn:Ea.
  - destruct (turnover_ratio_of m) as [t | e2] eqn:Et.
    + destruct (raw_score a t) as [s | e3] eqn:Es; [discriminate |].
      intros [= <-]. apply raw_score_raises in Es. eauto.
    + intros [= <-]. exact (float_raises _ _ _ Et).
  - intros [= <-]. exact (int_raises _ _ _ Ea).
Qed.

(** *** What the result depends on *)

(** X5: scoring a message that [compute_liquidity_signal] has already
    scored gives the same mapping and the same log records again. *)
Theorem scorer_idempotent (m r : dict) :
  result (compute m) = Returned r ->
  compute r = compute m /\ result (compute r) = Returned r.
Proof.
  intros H.
  destruct (compute_returns _ _ _ _ H) as (a & t & s & Ha & Ht & Hs & ->).
  assert (E : compute (enriched m s) = compute m).
  { rewrite !compute_steps.
    rewrite !dict_get_enriched by discriminate.
    rewrite Ha, Ht, Hs, enriched_idemp. reflexivity. }
  split; [exact E | now rewrite E].
Qed.

(** X6: the outcome depends on the message only through the two
    coerced fields: two messages with the same coerced [avg_volume] and
    [turnover_ratio] get the same [liquidity_score] and
    [liquidity_signal], or raise the same error. *)
Theorem scorer_reads_two_fields (m m' : dict) :
  avg_volume_of m = avg_volume_of m' ->
  turnover_ratio_of m = turnover_ratio_of m' ->
  match result (compute m), result (compute m') with
  | Returned r, Returned r' =>
      r !! "liquidity_score" = r' !! "liquidity_score" /\
      r !! "liquidity_signal" = r' !! "liquidity_signal"
  | Raised e, Raised e' => e = e'
  | _, _ => False
  end.
Proof.
  intros Ea Et. rewrite !compute_result, <- Ea, <- Et.
  destruct (avg_volume_of m) as [a |]; [| reflexivity].
  destruct (turnover_ratio_of m) as [t |]; [| reflexivity].
  destruct (raw_score a t) as [s |]; [| reflexivity].
  now rewrite !enriched_score, !enriched_signal.
Qed.

(** *** The signal and the stored score *)


(** X8: the signal is monotone: when a message is ["LIQUID"], every
    message with an [avg_volume] and a [turnover_ratio] at least as
    large, on which the scorer returns, is ["LIQUID"] too. *)
Theorem signal_monotone (m1 m2 r1 r2 : dict) (a1 a2 : Z) (t1 t2 : float) :
  avg_volume_of m1 = Returned a1 -> avg_volume_of m2 = Returned a2 ->
  turnover_ratio_of m1 = Returned t1 -> turnover_ratio_of m2 = Returned t2 ->
  result (compute m1) = Returned r1 -> result (compute m2) = Returned r2 ->
  a1 <= a2 ->
  t1 = t2 \/ (t1 <=? t2)%float = true ->
  r1 !! "liquidity_signal" = Some (VStr "LIQUID") ->
  r2 !! "liquidity_signal" = Some (VStr "LIQUID").
Proof.
  intros A1 A2 T1 T2 R1 R2 Ha Ht L1.
  destruct (compute_returns _ _ _ _ R1) as (a1' & t1' & s1 & A1' & T1' & S1 & ->).
  destruct (compute_returns _ _ _ _ R2) as (a2' & t2' & s2 & A2' & T2' & S2 & ->).
  rewrite A1 in A1'. rewrite A2 in A2'. rewrite T1 in T1'. rewrite T2 in T2'.
  injection A1' as <-. injection A2' as <-. injection T1' as <-. injection T2' as <-.
  rewrite enriched_signal in *.
  destruct (raw_score_returns _ _ _ S1) as (q1 & D1 & ->).
  destruct (raw_score_returns _ _ _ S2) as (q2 & D2 & ->).
  destruct (F64.is_nan_SF (Prim2SF t1)) eqn:N1.
  - rewrite ScoreRange.ge_int_nan in L1 by now apply nan_sum.
    discriminate L1.
  - assert (Hk : F64.is_nan_SF (Prim2SF t2) = false /\
                 F64.key (Prim2SF t1) <= F64.key (Prim2SF t2)).
    { destruct Ht as [<- | Hle]; [split; [exact N1 | lia] |].
      destruct (F64Order.leb_true_not_nan _ _ Hle) as [_ N2].
      rewrite F64Order.leb_key in Hle by assumption.
      split; [exact N2 | now apply Z.leb_le]. }
    destruct Hk as [N2 Hk].
    destruct (ScoreRange.raw_key_mono a1 a2 q1 q2 t1 t2 D1 D2 Ha N1 N2 Hk)
      as (Ns1 & Ns2 & Hs).
    rewrite ScoreRange.ge_int_key in L1 by exact Ns1.
    rewrite ScoreRange.ge_int_key by exact Ns2.
    destruct (Z.leb_spec (2 * 2 ^ F64.unit_exp) (F64.key (Prim2SF (q1 + t1))))
      as [H1 | H1]; [| discriminate L1].
    destruct (Z.leb_spec (2 * 2 ^ F64.unit_exp) (F64.key (Prim2SF (q2 + t2))))
      as [H2 | H2]; [reflexivity | lia].
Qed.

(** *** Missing fields *)

(** X9: a message with neither [avg_volume] nor [turnover_ratio] is
    always scored, from the defaults 1,000,000 and 0.8: the mapping
    returned is the message with [liquidity_score] 1.8 and
    [liquidity_signal] ["ILLIQUID"]. *)
Theorem missing_fields_default_score (m : dict) :
  m !! "avg_volume" = None -> m !! "turnover_ratio" = None ->
  result (compute m) =
    Returned (<["liquidity_score" := VFloat 1.8]>
                (<["liquidity_signal" := VStr "ILLIQUID"]> m)).
Proof.
  intros Ha Ht. rewrite compute_result.
  rewrite (dict_get_absent _ _ _ Ha), (dict_get_absent _ _ _ Ht).
  cbn [Py.int Py.float].
  change (raw_score 1000000 0.8) with (Returned (A := float) 1.8%float).
  cbv beta iota. rewrite enriched_inserts.
  change (Py.float_round 1.8 4) with 1.8%float.
  change (Py.float_ge_int 1.8 2) with false.
  reflexivity.
Qed.

(** X10: without a [turnover_ratio] in the message (so with the default
    0.8), the signal is ["LIQUID"] exactly when the coerced
    [avg_volume] is at least 1,200,000. *)
Theorem default_turnover_threshold (m r : dict) (a : Z) :
  m !! "turnover_ratio" = None ->
  avg_volume_of m = Returned a ->
  result (compute m) = Returned r ->
  r !! "liquidity_signal" =
    Some (VStr (if 1200000 <=? a then "LIQUID" else "ILLIQUID")).
Proof.
  intros Hn Ha H.
  destruct (compute_returns _ _ _ _ H) as (a' & t & s & Ha' & Ht & Hs & ->).
  rewrite Ha in Ha'. injection Ha' as <-.
  rewrite (dict_get_absent _ _ _ Hn) in Ht. injection Ht as <-.
  destruct (raw_score_returns _ _ _ Hs) as (q & D & ->).
  rewrite enriched_signal.
  destruct (Z.leb_spec 1200000 a) as [Hb | Hb].
  - assert (D0 : Py.int_true_divide 1200000 1000000
                 = Returned 0x1.3333333333333p+0%float) by exact eq_refl.
    destruct (ScoreRange.raw_key_mono _ _ _ _ 0.8 0.8 D0 D Hb eq_refl eq_refl
                (Z.le_refl _)) as (_ & N & K).
    rewrite ScoreRange.ge_int_key by exact N.
    change (F64.key (Prim2SF (0x1.3333333333333p+0 + 0.8)))
      with (F64.key (Prim2SF 2)) in K.
    rewrite ScoreRange.two_key in K.
    apply Z.leb_le in K. now rewrite K.
  - assert (D0 : Py.int_true_divide 1199999 1000000
                 = Returned 0x1.3333226c3b928p+0%float) by exact eq_refl.
    destruct (ScoreRange.raw_key_mono _ _ _ _ 0.8 0.8 D D0 ltac:(lia) eq_refl eq_refl
                (Z.le_refl _)) as (N & _ & K).
    rewrite ScoreRange.ge_int_key by exact N.
    assert (B : F64.key (Prim2SF (0x1.3333226c3b928p+0 + 0.8))
                < 2 * 2 ^ F64.unit_exp) by (apply Z.ltb_lt; exact eq_refl).
    destruct (Z.leb_spec (2 * 2 ^ F64.unit_exp) (F64.key (Prim2SF (q + 0.8))));
      [lia | reflexivity].
Qed.

(** X11: without an [avg_volume] in the message (so with the default
    1,000,000) the scorer returns for every coerced [turnover_ratio],
    and the signal is ["LIQUID"] exactly when the ratio is at least
    [1 - 2^-53], the float just below 1: its sum with 1.0 is a tie that
    rounds up to 2.0. *)
Theorem default_volume_threshold (m : dict) (t : float) :
  m !! "avg_volume" = None ->
  turnover_ratio_of m = Returned t ->
  exists r,
    result (compute m) = Returned r /\
    r !! "liquidity_signal" =
      Some (VStr (if (0x1.fffffffffffffp-1 <=? t)%float
                  then "LIQUID" else "ILLIQUID")).
Proof.
  intros Hn Ht.
  assert (D1 : Py.int_true_divide 1000000 1000000 = Returned 1%float)
    by exact eq_refl.
  exists (enriched m (1 + t)). split.
  { rewrite compute_result, (dict_get_absent _ _ _ Hn), Ht.
    cbn [Py.int]. unfold raw_score, Py.float_add. now rewrite D1. }
  rewrite enriched_signal.
  destruct (F64.is_nan_SF (Prim2SF t)) eqn:N.
  - rewrite ScoreRange.ge_int_nan by now apply nan_sum.
    destruct (_ <=? t)%float eqn:E; [| reflexivity].
    apply F64Order.leb_true_not_nan in E. destruct E as [_ E]. congruence.
  - rewrite F64Order.leb_key by (exact N || reflexivity).
    assert (F1 : F64.finite_SF (Prim2SF 1) = true) by reflexivity.
    destruct (Z.leb_spec (F64.key (Prim2SF 0x1.fffffffffffffp-1))
                (F64.key (Prim2SF t))) as [Hb | Hb].
    + destruct (ScoreRange.raw_key_mono _ _ _ _ 0x1.fffffffffffffp-1 t
                  D1 D1 (Z.le_refl _) eq_refl N Hb) as (_ & Ns & K).
      rewrite ScoreRange.ge_int_key by exact Ns.
      change (F64.key (Prim2SF (1 + 0x1.fffffffffffffp-1)))
        with (F64.key (Prim2SF 2)) in K.
      rewrite ScoreRange.two_key in K.
      apply Z.leb_le in K. now rewrite K.
    + destruct (PyOrder.add_key 1 t F1 N) as [Ns K].
      rewrite ScoreRange.ge_int_key by exact Ns.
      assert (B : F64.key (Prim2SF (1 + t)) < 2 * 2 ^ F64.unit_exp);
        [| apply Z.leb_gt in B; now rewrite B].
      rewrite K. unfold F64.lift_key.
      destruct (F64.finite_SF (Prim2SF t)).
      * eapply Z.le_lt_trans; [| exact ScoreRange.sum_below_two].
        apply PyOrder.sum_units_mono. lia.
      * assert (B : F64.key (Prim2SF 0x1.fffffffffffffp-1)
                    < 2 * 2 ^ F64.unit_exp) by (apply Z.ltb_lt; exact eq_refl).
        lia.
Qed.

(** *** Values that are not finite *)

(** X12: a [turnover_ratio] that is NaN or an infinity is not rejected:
    it comes back as the [liquidity_score], and the signal is
    ["LIQUID"] for [+inf] and ["ILLIQUID"] for [-inf] and for NaN,
    whatever the volume. *)
Theorem nonfinite_turnover_passes_through (m r : dict) (t : float) :
  turnover_ratio_of m = Returned t ->
  F64.finite t = false ->
  result (compute m) = Returned r ->
  r !! "liquidity_score" = Some (VFloat t) /\
  r !! "liquidity_signal" =
    Some (VStr (if (0 <? t)%float then "LIQUID" else "ILLIQUID")).
Proof.
  intros Ht F H.
  destruct (compute_returns _ _ _ _ H) as (a & t' & s & _ & Ht' & Hs & ->).
  rewrite Ht in Ht'. injection Ht' as <-.
  destruct (raw_score_returns _ _ _ Hs) as (q & D & ->).
  destruct (PyFacts.int_true_divide_key a 1000000 q ltac:(lia) D) as [Fq _].
  assert (E : (q + t)%float = t).
  { apply Prim2SF_inj. rewrite F64Ops.add_units.
    unfold F64.finite in F.
    destruct (Prim2SF q), (Prim2SF t); try discriminate; reflexivity. }
  rewrite enriched_score, enriched_signal, E.
  rewrite PyOrder.float_round_other by exact F.
  split; [reflexivity |].
  unfold Py.float_ge_int, F64.finite in *.
  rewrite ltb_spec. change (Prim2SF 0) with (S754_zero false).
  destruct (Prim2SF t) as [| [|] | |]; try discriminate F; reflexivity.
Qed.

(** X13: an [avg_volume] that is a float NaN or infinity makes
    [compute_liquidity_signal] raise before it logs anything:
    [ValueError] for NaN, [OverflowError] for an infinity. *)
Theorem nonfinite_volume_raises (m : dict) (x : float) :
  m !! "avg_volume" = Some (VFloat x) ->
  F64.finite x = false ->
  logged (compute m) = [] /\
  result (compute m) =
    Raised (Builtin (if F64.is_nan_SF (Prim2SF x)
                     then ValueError else OverflowError)).
Proof.
  intros Hx F. rewrite compute_steps, (dict_get_present _ _ _ _ Hx).
  cbn [Py.int]. unfold Py.int_of_float, F64.finite in *.
  destruct (Prim2SF x); try discriminate F; split; reflexivity.
Qed.

(** X14: the sum does not raise when it overflows: for a finite
    quotient and a finite [turnover_ratio] whose exact sum is
    [2^1024 - 2^970] or more, the scorer returns a [liquidity_score] of
    [+inf] and the signal ["LIQUID"]. *)
Theorem sum_overflow_is_infinite (m : dict) (a : Z) (q t : float) :
  avg_volume_of m = Returned a -> turnover_ratio_of m = Returned t ->
  Py.int_true_divide a 1000000 = Returned q ->
  F64.finite t = true ->
  (2 ^ 1024 - 2 ^ 970) * 2 ^ F64.unit_exp <= F64.units q + F64.units t ->
  exists r,
    result (compute m) = Returned r /\
    r !! "liquidity_score" = Some (VFloat infinity) /\
    r !! "liquidity_signal" = Some (VStr "LIQUID").
Proof.
  intros Ha Ht D F Hb.
  destruct (PyFacts.int_true_divide_key a 1000000 q ltac:(lia) D) as [Fq _].
  assert (N : F64.is_nan_SF (Prim2SF t) = false).
  { unfold F64.finite in F. destruct (Prim2SF t); try discriminate F; reflexivity. }
  destruct (PyOrder.add_key q t Fq N) as [Ns K].
  assert (E : (q + t)%float = infinity).
  { apply Prim2SF_inj. change (Prim2SF infinity) with (S754_infinity false).
    apply ScoreRange.key_overflow; [apply Prim2SF_valid | exact Ns |].
    rewrite K. unfold F64.lift_key. unfold F64.finite in F. rewrite F.
    rewrite !F64Order.key_units by assumption.
    etransitivity; [exact ScoreRange.sum_overflows |].
    now apply PyOrder.sum_units_mono. }
  exists (enriched m infinity). split.
  { rewrite compute_result, Ha, Ht. unfold raw_score, Py.float_add.
    now rewrite D, E. }
  rewrite enriched_score, enriched_signal. split; reflexivity.
Qed.

(** *** Numeric messages *)

(** X15: a numeric message is always scored: when [avg_volume] is
    absent, an integer below [10^6 * (2^1024 - 2^970)] in magnitude or
    a finite float, and [turnover_ratio] is absent, a float or an
    integer within 53 bits, [compute_liquidity_signal] returns. *)
Theorem numeric_message_is_scored (m : dict) :
  (m !! "avg_volume" = None \/
   (exists n, m !! "avg_volume" = Some (VInt n) /\
              Z.abs n < 1000000 * (2 ^ 1024 - 2 ^ 970)) \/
   (exists x, m !! "avg_volume" = Some (VFloat x) /\ F64.finite x = true)) ->
  (m !! "turnover_ratio" = None \/
   (exists x, m !! "turnover_ratio" = Some (VFloat x)) \/
   (exists n, m !! "turnover_ratio" = Some (VInt n) /\ Z.abs n <= 2 ^ 53)) ->
  exists r, result (compute m) = Returned r.
Proof.
  intros Hv Hr.
  assert (A : exists a, avg_volume_of m = Returned a /\
                        Z.abs a < 1000000 * (2 ^ 1024 - 2 ^ 970)).
  { destruct Hv as [Hn | [(n & Hn & Hb) | (x & Hx & F)]].
    - rewrite (dict_get_absent _ _ _ Hn). exists 1000000.
      split; [reflexivity |]. apply Z.ltb_lt. exact eq_refl.
    - rewrite (dict_get_present _ _ _ _ Hn). now exists n.
    - rewrite (dict_get_present _ _ _ _ Hx). cbn [Py.int].
      destruct (Py.int_of_float x) as [n | e] eqn:E.
      + exists n. split; [reflexivity |].
        destruct (PyOrder.int_of_float_truncates x n E) as (_ & (B & _) & _).
        pose proof (F64Order.key_finite_bound (Prim2SF x)
                      (Prim2SF_valid x) F) as K.
        rewrite F64Order.key_units in K by exact F. fold (F64.units x) in K.
        rewrite (F64Round.overflow_split 1024 1074) in K by lia.
        change 1074 with F64.unit_exp in K.
        pose proof PyFacts.unit_pos as U.
        assert (Z.abs n < 2 ^ 1024) by nia.
        assert (2 ^ 970 * 2 ^ 54 = 2 ^ 1024)
          by (rewrite <- F64Round.pow2_split by lia; reflexivity).
        assert (0 < 2 ^ 970) by (apply F64Round.pow2_pos; lia).
        change (2 ^ 54) with 18014398509481984 in *. lia.
      + exfalso. unfold Py.int_of_float, F64.finite in *.
        destruct (Prim2SF x); discriminate. }
  assert (T : exists t, turnover_ratio_of m = Returned t).
  { destruct Hr as [Hn | [(x & Hx) | (n & Hn & Hb)]].
    - rewrite (dict_get_absent _ _ _ Hn). now exists 0.8%float.
    - rewrite (dict_get_present _ _ _ _ Hx). now exists x.
    - rewrite (dict_get_present _ _ _ _ Hn). cbn [Py.float].
      destruct (PyFacts.float_of_int_exact n Hb) as (x & -> & _). now exists x. }
  destruct A as (a & Ha & Hb). destruct T as (t & Ht).
  rewrite compute_result, Ha, Ht.
  pose proof (raw_score_in_range a t) as R.
  destruct (Z.leb_spec (1000000 * (2 ^ 1024 - 2 ^ 970)) (Z.abs a)); [lia |].
  destruct R as [s ->]. eauto.
Qed.

(** X16: a volume and a turnover that are not negative never give a
    negative [liquidity_score]. *)
Theorem nonnegative_inputs_nonnegative_score
    (m r : dict) (a : Z) (t y : float) :
  avg_volume_of m = Returned a -> turnover_ratio_of m = Returned t ->
  0 <= a -> (0 <=? t)%float = true ->
  result (compute m) = Returned r ->
  r !! "liquidity_score" = Some (VFloat y) ->
  (0 <=? y)%float = true.
Proof.
  intros Ha Ht Ha0 Ht0 H Hy.
  destruct (compute_returns _ _ _ _ H) as (a' & t' & s & Ha' & Ht' & Hs & ->).
  rewrite Ha in Ha'. rewrite Ht in Ht'. injection Ha' as <-. injection Ht' as <-.
  destruct (raw_score_returns _ _ _ Hs) as (q & D & ->).
  rewrite enriched_score in Hy. injection Hy as <-.
  assert (D0 : Py.int_true_divide 0 1000000 = Returned 0%float) by exact eq_refl.
  destruct (F64Order.leb_true_not_nan _ _ Ht0) as [N0 Nt].
  assert (Hk : F64.key (Prim2SF 0) <= F64.key (Prim2SF t)).
  { rewrite F64Order.leb_key in Ht0 by assumption. now apply Z.leb_le. }
  destruct (ScoreOrder.stored_key_mono 0 a 0 q 0 t 4 D0 D Ha0 N0 Nt Hk)
    as (_ & Ny & K).
  rewrite F64Order.leb_key by (exact Ny || exact N0).
  apply Z.leb_le.
  change (F64.key (Prim2SF (Py.float_round (0 + 0) 4)))
    with (F64.key (Prim2SF 0)) in K.
  exact K.
Qed.

(** *** What makes a message liquid *)

(** X17: either input alone can make a message ["LIQUID"] when the
    other is not negative: an [avg_volume] of 2,000,000 or more, or a
    [turnover_ratio] of 2 or more. *)
Theorem liquid_sufficient (m r : dict) (a : Z) (t : float) :
  avg_volume_of m = Returned a -> turnover_ratio_of m = Returned t ->
  result (compute m) = Returned r ->
  (2000000 <= a /\ (0 <=? t)%float = true) \/
  (0 <= a /\ (2 <=? t)%float = true) ->
  r !! "liquidity_signal" = Some (VStr "LIQUID").
Proof.
  intros Ha Ht H Hc.
  destruct (compute_returns _ _ _ _ H) as (a' & t' & s & Ha' & Ht' & Hs & ->).
  rewrite Ha in Ha'. rewrite Ht in Ht'. injection Ha' as <-. injection Ht' as <-.
  destruct (raw_score_returns _ _ _ Hs) as (q & D & ->).
  rewrite enriched_signal.
  assert (B : F64.is_nan_SF (Prim2SF (q + t)) = false /\
              2 * 2 ^ F64.unit_exp <= F64.key (Prim2SF (q + t))).
  { destruct Hc as [[Hb Hle] | [Hb Hle]];
      destruct (F64Order.leb_true_not_nan _ _ Hle) as [N0 Nt];
      rewrite F64Order.leb_key in Hle by assumption; apply Z.leb_le in Hle.
    - assert (D0 : Py.int_true_divide 2000000 1000000 = Returned 2%float)
        by exact eq_refl.
      destruct (ScoreRange.raw_key_mono _ _ _ _ 0 t D0 D Hb N0 Nt Hle)
        as (_ & N & K).
      change (F64.key (Prim2SF (2 + 0))) with (F64.key (Prim2SF 2)) in K.
      rewrite ScoreRange.two_key in K. now split.
    - assert (D0 : Py.int_true_divide 0 1000000 = Returned 0%float)
        by exact eq_refl.
      destruct (ScoreRange.raw_key_mono _ _ _ _ 2 t D0 D Hb N0 Nt Hle)
        as (_ & N & K).
      change (F64.key (Prim2SF (0 + 2))) with (F64.key (Prim2SF 2)) in K.
      rewrite ScoreRange.two_key in K. now split. }
  destruct B as [N K]. rewrite ScoreRange.ge_int_key by exact N.
  apply Z.leb_le in K. now rewrite K.
Qed.


End Coverage.

(** ** The further properties on the sample messages *)

Local Abbreviation scorer :=
  (compute_liquidity_signal Literal.int_literal Literal.float_literal).
Local Abbreviation volume_of m :=
  (Py.int Literal.int_literal (Py.dict_get m "avg_volume" (VInt 1000000))).
Local Abbreviation ratio_of m :=
  (Py.float Literal.float_literal (Py.dict_get m "turnover_ratio" (VFloat 0.8))).

Lemma scorer_log_on_success_witness :
  result (scorer Sample.no_symbol)
    = Returned (enriched Sample.no_symbol (5e-06 + 0.8)) /\
  exists a t s,
    volume_of Sample.no_symbol = Returned a /\
    ratio_of Sample.no_symbol = Returned t /\
    raw_score a t = Returned s /\
    enriched Sample.no_symbol (5e-06 + 0.8) = enriched Sample.no_symbol s /\
    logged (scorer Sample.no_symbol) =
      [ LogRecord INFO "💧 Computing liquidity signal for %s"
          [Py.dict_get Sample.no_symbol "symbol" (VStr "UNKNOWN")];
        LogRecord DEBUG "✅ Liquidity result for %s: %s"
          [Py.dict_get Sample.no_symbol "symbol" (VStr "UNKNOWN");
           VDict {[ "liquidity_score" := VFloat (Py.float_round s 4);
                    "liquidity_signal" :=
                      VStr (if Py.float_ge_int s 2 then "LIQUID" else "ILLIQUID") ]}] ].
Proof.
  premises ltac:(exact eq_refl).
  exact (scorer_log_on_success Literal.int_literal Literal.float_literal _ _ H).
Defined.

Lemma scorer_log_on_failure_witness :
  result (scorer Sample.overflowing) = Raised (Builtin OverflowError) /\
  ((logged (scorer Sample.overflowing) = [] /\
    (volume_of Sample.overflowing = Raised (Builtin OverflowError) \/
     exists a, volume_of Sample.overflowing = Returned a /\
               ratio_of Sample.overflowing = Raised (Builtin OverflowError)))
   \/
   (logged (scorer Sample.overflowing) =
      [ LogRecord INFO "💧 Computing liquidity signal for %s"
          [Py.dict_get Sample.overflowing "symbol" (VStr "UNKNOWN")] ] /\
    Builtin OverflowError = Builtin OverflowError /\
    exists a t,
      volume_of Sample.overflowing = Returned a /\
      ratio_of Sample.overflowing = Returned t /\
      1000000 * (2 ^ 1024 - 2 ^ 970) <= Z.abs a)).
Proof.
  premises ltac:(exact eq_refl).
  exact (scorer_log_on_failure Literal.int_literal Literal.float_literal _ _ H).
Defined.

Lemma scorer_returns_within_range_witness :
  (volume_of Sample.boundary = Returned 1200000 /\
   ratio_of Sample.boundary = Returned 0.8%float) /\
  (Z.abs 1200000 < 1000000 * (2 ^ 1024 - 2 ^ 970) ->
   exists s, raw_score 1200000 0.8 = Returned s /\
             result (scorer Sample.boundary) = Returned (enriched Sample.boundary s)) /\
  (1000000 * (2 ^ 1024 - 2 ^ 970) <= Z.abs 1200000 ->
   result (scorer Sample.boundary) = Raised (Builtin OverflowError)).
Proof.
  premises ltac:(split; exact eq_refl).
  destruct H as (Ha & Ht).
  exact (scorer_returns_within_range Literal.int_literal Literal.float_literal
           _ _ _ Ha Ht).
Defined.

Lemma scorer_raises_only_builtin_witness :
  result (scorer Sample.not_a_number) = Raised (Builtin ValueError) /\
  exists c,
    Builtin ValueError = Builtin c /\
    (c = TypeError \/ c = ValueError \/ c = OverflowError).
Proof.
  premises ltac:(exact eq_refl).
  exact (scorer_raises_only_builtin Literal.int_literal Literal.float_literal _ _ H).
Defined.

Lemma scorer_idempotent_witness :
  result (scorer Sample.stale) = Returned (enriched Sample.stale (1 + 0.8)) /\
  scorer (enriched Sample.stale (1 + 0.8)) = scorer Sample.stale /\
  result (scorer (enriched Sample.stale (1 + 0.8)))
    = Returned (enriched Sample.stale (1 + 0.8)).
Proof.
  premises ltac:(exact eq_refl).
  exact (scorer_idempotent Literal.int_literal Literal.float_literal _ _ H).
Defined.

Lemma scorer_reads_two_fields_witness :
  (volume_of Sample.fractional = volume_of Sample.textual /\
   ratio_of Sample.fractional = ratio_of Sample.textual) /\
  match result (scorer Sample.fractional), result (scorer Sample.textual) with
  | Returned r, Returned r' =>
      r !! "liquidity_score" = r' !! "liquidity_score" /\
      r !! "liquidity_signal" = r' !! "liquidity_signal"
  | Raised e, Raised e' => e = e'
  | _, _ => False
  end.
Proof.
  premises ltac:(split; exact eq_refl).
  destruct H as (Ha & Ht).
  exact (scorer_reads_two_fields Literal.int_literal Literal.float_literal _ _ Ha Ht).
Defined.


Lemma signal_monotone_witness :
  (volume_of Sample.boundary = Returned 1200000 /\
   volume_of Sample.fractional = Returned 1999999 /\
   ratio_of Sample.boundary = Returned 0.8%float /\
   ratio_of Sample.fractional = Returned 0.8%float /\
   result (scorer Sample.boundary) = Returned (enriched Sample.boundary (1.2 + 0.8)) /\
   result (scorer Sample.fractional)
     = Returned (enriched Sample.fractional (1.999999 + 0.8)) /\
   1200000 <= 1999999 /\
   (0.8%float = 0.8%float \/ (0.8 <=? 0.8)%float = true) /\
   enriched Sample.boundary (1.2 + 0.8) !! "liquidity_signal"
     = Some (VStr "LIQUID")) /\
  enriched Sample.fractional (1.999999 + 0.8) !! "liquidity_signal"
    = Some (VStr "LIQUID").
Proof.
  premises ltac:(do 6 (split; [exact eq_refl |]);
                 split; [lia | split; [left |]; exact eq_refl]).
  destruct H as (A1 & A2 & T1 & T2 & R1 & R2 & Ha & Ht & L1).
  exact (signal_monotone Literal.int_literal Literal.float_literal _ _ _ _ _ _ _ _
           A1 A2 T1 T2 R1 R2 Ha Ht L1).
Defined.

Lemma missing_fields_default_score_witness :
  (Sample.defaults !! "avg_volume" = None /\
   Sample.defaults !! "turnover_ratio" = None) /\
  result (scorer Sample.defaults) =
    Returned (<["liquidity_score" := VFloat 1.8]>
                (<["liquidity_signal" := VStr "ILLIQUID"]> Sample.defaults)).
Proof.
  premises ltac:(split; exact eq_refl).
  destruct H as (Ha & Ht).
  exact (missing_fields_default_score Literal.int_literal Literal.float_literal
           _ Ha Ht).
Defined.

Lemma default_turnover_threshold_witness :
  (Sample.no_symbol !! "turnover_ratio" = None /\
   volume_of Sample.no_symbol = Returned 5 /\
   result (scorer Sample.no_symbol)
     = Returned (enriched Sample.no_symbol (5e-06 + 0.8))) /\
  enriched Sample.no_symbol (5e-06 + 0.8) !! "liquidity_signal" =
    Some (VStr (if 1200000 <=? 5 then "LIQUID" else "ILLIQUID")).
Proof.
  premises ltac:(split; [exact eq_refl | split; exact eq_refl]).
  destruct H as (Hn & Ha & Hr).
  exact (default_turnover_threshold Literal.int_literal Literal.float_literal
           _ _ _ Hn Ha Hr).
Defined.

Lemma default_volume_threshold_witness :
  (Sample.almost_one !! "avg_volume" = None /\
   ratio_of Sample.almost_one = Returned 0x1.fffffffffffffp-1%float) /\
  exists r,
    result (scorer Sample.almost_one) = Returned r /\
    r !! "liquidity_signal" =
      Some (VStr (if (0x1.fffffffffffffp-1 <=? 0x1.fffffffffffffp-1)%float
                  then "LIQUID" else "ILLIQUID")).
Proof.
  premises ltac:(split; exact eq_refl).
  destruct H as (Hn & Ht).
  exact (default_volume_threshold Literal.int_literal Literal.float_literal
           _ _ Hn Ht).
Defined.

Lemma nonfinite_turnover_passes_through_witness :
  (ratio_of Sample.nan_turnover = Returned nan /\
   F64.finite nan = false /\
   result (scorer Sample.nan_turnover)
     = Returned (enriched Sample.nan_turnover nan)) /\
  enriched Sample.nan_turnover nan !! "liquidity_score" = Some (VFloat nan) /\
  enriched Sample.nan_turnover nan !! "liquidity_signal" =
    Some (VStr (if (0 <? nan)%float then "LIQUID" else "ILLIQUID")).
Proof.
  premises ltac:(split; [exact eq_refl | split; exact eq_refl]).
  destruct H as (Ht & F & Hr).
  exact (nonfinite_turnover_passes_through Literal.int_literal Literal.float_literal
           _ _ _ Ht F Hr).
Defined.

Lemma nonfinite_volume_raises_witness :
  (Sample.infinite_volume !! "avg_volume" = Some (VFloat infinity) /\
   F64.finite infinity = false) /\
  logged (scorer Sample.infinite_volume) = [] /\
  result (scorer Sample.infinite_volume) =
    Raised (Builtin (if F64.is_nan_SF (Prim2SF infinity)
                     then ValueError else OverflowError)).
Proof.
  premises ltac:(split; exact eq_refl).
  destruct H as (Hx & F).
  exact (nonfinite_volume_raises Literal.int_literal Literal.float_literal
           _ _ Hx F).
Defined.

Lemma sum_overflow_is_infinite_witness :
  (volume_of Sample.largest = Returned (1000000 * (2 ^ 1024 - 2 ^ 971)) /\
   ratio_of Sample.largest = Returned 0x1.fffffffffffffp+1023%float /\
   Py.int_true_divide (1000000 * (2 ^ 1024 - 2 ^ 971)) 1000000
     = Returned 0x1.fffffffffffffp+1023%float /\
   F64.finite 0x1.fffffffffffffp+1023 = true /\
   (2 ^ 1024 - 2 ^ 970) * 2 ^ F64.unit_exp
   <= F64.units 0x1.fffffffffffffp+1023 + F64.units 0x1.fffffffffffffp+1023) /\
  exists r,
    result (scorer Sample.largest) = Returned r /\
    r !! "liquidity_score" = Some (VFloat infinity) /\
    r !! "liquidity_signal" = Some (VStr "LIQUID").
Proof.
  premises ltac:(do 4 (split; [exact eq_refl |]); apply Z.leb_le; exact eq_refl).
  destruct H as (Ha & Ht & D & F & Hb).
  exact (sum_overflow_is_infinite Literal.int_literal Literal.float_literal
           _ _ _ _ Ha Ht D F Hb).
Defined.

Lemma numeric_message_is_scored_witness :
  ((Sample.fractional !! "avg_volume" = None \/
    (exists n, Sample.fractional !! "avg_volume" = Some (VInt n) /\
               Z.abs n < 1000000 * (2 ^ 1024 - 2 ^ 970)) \/
    (exists x, Sample.fractional !! "avg_volume" = Some (VFloat x) /\
               F64.finite x = true)) /\
   (Sample.fractional !! "turnover_ratio" = None \/
    (exists x, Sample.fractional !! "turnover_ratio" = Some (VFloat x)) \/
    (exists n, Sample.fractional !! "turnover_ratio" = Some (VInt n) /\
               Z.abs n <= 2 ^ 53))) /\
  exists r, result (scorer Sample.fractional) = Returned r.
Proof.
  premises ltac:(split;
                 [ right; right; exists 1999999.9%float; split; exact eq_refl
                 | right; left; exists 0.8%float; exact eq_refl ]).
  destruct H as (Hv & Hr).
  exact (numeric_message_is_scored Literal.int_literal Literal.float_literal
           _ Hv Hr).
Defined.

Lemma nonnegative_inputs_nonnegative_score_witness :
  (volume_of Sample.boundary = Returned 1200000 /\
   ratio_of Sample.boundary = Returned 0.8%float /\
   0 <= 1200000 /\
   (0 <=? 0.8)%float = true /\
   result (scorer Sample.boundary) = Returned (enriched Sample.boundary (1.2 + 0.8)) /\
   enriched Sample.boundary (1.2 + 0.8) !! "liquidity_score" = Some (VFloat 2)) /\
  (0 <=? 2)%float = true.
Proof.
  premises ltac:(do 2 (split; [exact eq_refl |]); split; [lia |];
                 split; [exact eq_refl | split; exact eq_refl]).
  destruct H as (Ha & Ht & Ha0 & Ht0 & Hr & Hy).
  exact (nonnegative_inputs_nonnegative_score Literal.int_literal Literal.float_literal
           _ _ _ _ _ Ha Ht Ha0 Ht0 Hr Hy).
Defined.

Lemma liquid_sufficient_witness :
  (volume_of Sample.huge = Returned 1000000000000000063 /\
   ratio_of Sample.huge = Returned 0.8%float /\
   result (scorer Sample.huge)
     = Returned (enriched Sample.huge 0x1.d1a94a200199bp+39) /\
   ((2000000 <= 1000000000000000063 /\ (0 <=? 0.8)%float = true) \/
    (0 <= 1000000000000000063 /\ (2 <=? 0.8)%float = true))) /\
  enriched Sample.huge 0x1.d1a94a200199bp+39 !! "liquidity_signal"
    = Some (VStr "LIQUID").
Proof.
  premises ltac:(do 3 (split; [exact eq_refl |]); left; split; [lia | exact eq_refl]).
  destruct H as (Ha & Ht & Hr & Hc).
  exact (liquid_sufficient Literal.int_literal Literal.float_literal
           _ _ _ _ Ha Ht Hr Hc).
Defined.


(** *** The edges, evaluated *)

Example overflowing_volume_raises :
  result (scorer Sample.overflowing) = Raised (Builtin OverflowError) /\
  Sample.scored (scorer Sample.largest) = Some (VFloat infinity, VStr "LIQUID").
Proof. split; exact eq_refl. Qed.

Example almost_one_is_liquid :
  Sample.scored (scorer Sample.almost_one) = Some (VFloat 2, VStr "LIQUID").
Proof. exact eq_refl. Qed.

Example nan_turnover_is_illiquid :
  Sample.scored (scorer Sample.nan_turnover) = Some (VFloat nan, VStr "ILLIQUID").
Proof. exact eq_refl. Qed.
